(** * Python client of the Web Time Series Service ([wtss.py])

    A shallow embedding of the class [wtss] of [src/wtss/wtss.py] and the
    properties of its methods.

    The file has these parts:
    - the fragment of the Python 2 runtime the class relies on (dynamic
      values, truthiness, exceptions, [str.join], the [%f] conversion,
      subscription and iteration);
    - the class itself, one definition per method, in [Module wtss];
    - the decoder of a query string, used to state the round trip of a
      coverage name;
    - sample environments and the vocabulary of the properties;
    - the properties, then the properties at concrete calls.

    The library functions the class calls ([urllib2.urlopen], [json.loads],
    [datetime.strptime]) are parameters of the methods: every property holds
    for any transport, any decoder and any date parser.

    Scope of the model. Strings are Python 2 [str] values (byte strings),
    as the docstrings of the class type them; [unicode] objects are not
    modelled. A Python [int] is an unbounded integer. A Python [float] is
    a binary64 number, embedded as a primitive float. *)

From Stdlib Require Import ZArith String Ascii List Floats DecimalString.
From stdpp Require Import base gmap strings list.

Set Warnings "-inexact-float,-register-all".

(** ** Dynamic values *)

(** The values a caller can hand to the client, and the values
    [json.loads] produces. A [dict] is keyed by strings, as a JSON object. *)
Inductive pyval :=
| PNone
| PBool (b : bool)
| PInt (z : Z)
| PFloat (f : float)
| PStr (s : string)
| PList (l : list pyval)
| PTuple (l : list pyval)
| PDict (d : gmap string pyval).

(** [type(v)] *)
Inductive pytype :=
| NoneType | bool_t | int_t | float_t | str_t | list_t | tuple_t | dict_t.

Definition type (v : pyval) : pytype :=
  match v with
  | PNone => NoneType
  | PBool _ => bool_t
  | PInt _ => int_t
  | PFloat _ => float_t
  | PStr _ => str_t
  | PList _ => list_t
  | PTuple _ => tuple_t
  | PDict _ => dict_t
  end.

(** [type(v).__name__] *)
Definition type_name (t : pytype) : string :=
  match t with
  | NoneType => "NoneType"
  | bool_t => "bool"
  | int_t => "int"
  | float_t => "float"
  | str_t => "str"
  | list_t => "list"
  | tuple_t => "tuple"
  | dict_t => "dict"
  end.

(** Truth value of a string: [bool(s)]. *)
Definition str_truthy (s : string) : bool :=
  match s with
  | EmptyString => false
  | String _ _ => true
  end.

(** Truth value of any object: [bool(v)]. *)
Definition truthy (v : pyval) : bool :=
  match v with
  | PNone => false
  | PBool b => b
  | PInt z => negb (z =? 0)%Z
  | PFloat f => negb (PrimFloat.eqb f 0%float)
  | PStr s => str_truthy s
  | PList l | PTuple l =>
      match l with
      | [] => false
      | _ :: _ => true
      end
  | PDict d => negb (Nat.eqb (size d) 0)
  end.

(** ** Exceptions *)

(** The exception classes that reach the caller of the client. *)
Inductive exn_class :=
| ValueError_c | TypeError_c | KeyError_c | URLError_c | HTTPError_c.

(** An exception object: its class and what it carries. *)
Inductive exn :=
| ValueError (msg : string)
| TypeError (msg : string)
| KeyError (key : string)
| URLError (reason : string)
| HTTPError (code : Z).

Definition class_of (e : exn) : exn_class :=
  match e with
  | ValueError _ => ValueError_c
  | TypeError _ => TypeError_c
  | KeyError _ => KeyError_c
  | URLError _ => URLError_c
  | HTTPError _ => HTTPError_c
  end.

Definition exn_class_eqb (a b : exn_class) : bool :=
  match a, b with
  | ValueError_c, ValueError_c | TypeError_c, TypeError_c
  | KeyError_c, KeyError_c | URLError_c, URLError_c
  | HTTPError_c, HTTPError_c => true
  | _, _ => false
  end.

(** [except c:] catches [e]: the class of [e] is [c] or a subclass of it
    ([HTTPError] derives from [URLError]). *)
Definition caught_by (c : exn_class) (e : exn) : bool :=
  match c, class_of e with
  | URLError_c, HTTPError_c => true
  | c, c' => exn_class_eqb c c'
  end.

(** A computation that returns a value or raises. *)
Definition result (A : Type) : Type := (exn + A)%type.

(** ** Decimal numerals *)

Definition digit_char (d : Z) : ascii :=
  ascii_of_nat (48 + Z.to_nat d).

(** The [w] low decimal digits of [n], zero padded. *)
Fixpoint digits_fixed (w : nat) (n : Z) : string :=
  match w with
  | O => ""
  | S w' => digits_fixed w' (n / 10) +:+ String (digit_char (n mod 10)) ""
  end.

(** The decimal numeral of a natural number: [str(n)]. *)
Definition dec_of_N (n : N) : string :=
  NilZero.string_of_uint (N.to_uint n).

Definition dec_of_Z (n : Z) : string :=
  dec_of_N (Z.to_N n).

(** ** [str.join] *)

(** Index of the first item that is not a [str], counting from [i]. *)
Fixpoint first_non_str (i : nat) (l : list pyval) : option (nat * pyval) :=
  match l with
  | [] => None
  | PStr _ :: rest => first_non_str (S i) rest
  | v :: _ => Some (i, v)
  end.

(** Concatenation of the items of a list of strings, [sep] between them. *)
Fixpoint concat_sep (sep : string) (l : list string) : string :=
  match l with
  | [] => ""
  | [s] => s
  | s :: rest => s +:+ sep +:+ concat_sep sep rest
  end.

(** The strings of a list whose items are all [str]; other items are
    skipped ([str_join] never meets one). *)
Fixpoint str_items (l : list pyval) : list string :=
  match l with
  | [] => []
  | PStr s :: rest => s :: str_items rest
  | _ :: rest => str_items rest
  end.

(** [sep.join(l)]: all items are checked first; the first item that is not
    a string raises [TypeError]. *)
Definition str_join (sep : string) (l : list pyval) : result string :=
  match first_non_str 0 l with
  | Some (i, v) =>
      inl (TypeError ("sequence item " +:+ dec_of_N (N.of_nat i)
                      +:+ ": expected string, " +:+ type_name (type v)
                      +:+ " found"))
  | None => inr (concat_sep sep (str_items l))
  end.

(** ** The [%f] conversion of a float *)

(** [p / q] rounded to the nearest integer, ties to the even one
    ([0 <= p], [0 < q]). *)
Definition round_half_even (p q : Z) : Z :=
  let d := (p / q)%Z in
  let r := (p mod q)%Z in
  if (2 * r <? q)%Z then d
  else if (q <? 2 * r)%Z then (d + 1)%Z
  else if Z.even d then d else (d + 1)%Z.

Definition sign_prefix (neg : bool) : string :=
  if neg then "-" else "".

(** Fixed notation with six decimals of the number [m * 2^e]. *)
Definition fixed6 (neg : bool) (m : positive) (e : Z) : string :=
  let r :=
    if (0 <=? e)%Z
    then (Z.pos m * 2 ^ e * 10 ^ 6)%Z
    else round_half_even (Z.pos m * 10 ^ 6) (2 ^ (- e)) in
  sign_prefix neg +:+ dec_of_Z (r / 10 ^ 6) +:+ "."
  +:+ digits_fixed 6 (r mod 10 ^ 6).

(** A numeral without its trailing zeros. *)
Definition strip_zeros (s : string) : string :=
  let fix go (s : string) : string :=
    match s with
    | EmptyString => EmptyString
    | String c rest =>
        match go rest with
        | EmptyString => if Ascii.eqb c "0" then EmptyString else String c ""
        | rest' => String c rest'
        end
    end in
  go s.

(** [%g] notation (six significant digits) of the integer [x], for
    [10^6 <= x]: always with an exponent. *)
Definition general6 (neg : bool) (x : Z) : string :=
  let n := Z.of_nat (String.length (dec_of_Z x)) in
  let r := round_half_even x (10 ^ (n - 6)) in
  let '(r, n) := if (r =? 10 ^ 6)%Z then (10 ^ 5, n + 1)%Z else (r, n) in
  let frac := strip_zeros (digits_fixed 5 (r mod 10 ^ 5)) in
  let expo := dec_of_Z (n - 1) in
  sign_prefix neg +:+ dec_of_Z (r / 10 ^ 5)
  +:+ (if str_truthy frac then "." +:+ frac else "")
  +:+ "e+" +:+ (if (n - 1 <? 10)%Z then "0" +:+ expo else expo).

(** ["%f" % x] for a float [x]. CPython 2 prints a magnitude of [1e50] or
    more in the [%g] notation. *)
Definition format_f (x : float) : string :=
  match Prim2SF x with
  | S754_nan => "nan"
  | S754_infinity neg => sign_prefix neg +:+ "inf"
  | S754_zero neg => sign_prefix neg +:+ "0.000000"
  | S754_finite neg m e =>
      if PrimFloat.leb 1e50%float (PrimFloat.abs x)
      then general6 neg (Z.pos m * 2 ^ e)
      else fixed6 neg m e
  end.


(** ** Subscription, iteration, equality *)

Definition no_getitem (t : pytype) : exn :=
  TypeError ("'" +:+ type_name t +:+ "' object has no attribute '__getitem__'").

(** [v[k]] for a [str] key [k]. *)
Definition getitem (v : pyval) (k : string) : result pyval :=
  match v with
  | PDict d =>
      match d !! k with
      | Some x => inr x
      | None => inl (KeyError k)
      end
  | PList _ => inl (TypeError "list indices must be integers, not str")
  | PTuple _ => inl (TypeError "tuple indices must be integers, not str")
  | PStr _ => inl (TypeError "string indices must be integers, not str")
  | v => inl (no_getitem (type v))
  end.

(** The characters of a string, each as a string of length one. *)
Fixpoint chars (s : string) : list pyval :=
  match s with
  | EmptyString => []
  | String c rest => PStr (String c "") :: chars rest
  end.

(** The items [for x in v] goes through. A [dict] gives its keys, in the
    order of the map (no order is promised by Python either). *)
Definition iter (v : pyval) : result (list pyval) :=
  match v with
  | PList l | PTuple l => inr l
  | PStr s => inr (chars s)
  | PDict d => inr ((λ kv, PStr kv.1) <$> map_to_list d)
  | v => inl (TypeError ("'" +:+ type_name (type v) +:+ "' object is not iterable"))
  end.

(** [v == s] for a [str] object [s]: no object of another type equals a
    string. *)
Definition eq_str (v : pyval) (s : string) : bool :=
  match v with
  | PStr t => String.eqb t s
  | _ => false
  end.

(** ** Dates *)

(** [datetime.datetime] and [datetime.date] objects. *)
Record datetime := {
  dt_year : Z; dt_month : Z; dt_day : Z;
  dt_hour : Z; dt_minute : Z; dt_second : Z; dt_microsecond : Z
}.

Record date := { year : Z; month : Z; day : Z }.

(** [dt.date()] *)
Definition datetime_date (dt : datetime) : date :=
  {| year := dt_year dt; month := dt_month dt; day := dt_day dt |}.

(** ** Computations *)

#[export] Instance result_ret : MRet result := λ A x, inr x.

#[export] Instance result_bind : MBind result := λ A B f m,
  match m with
  | inl e => inl e
  | inr x => f x
  end.

(** A list comprehension [[f(x) for x in l]]: the items in order, the
    first exception ends it. *)
Fixpoint comprehension {A B : Type} (f : A → result B) (l : list A)
  : result (list B) :=
  match l with
  | [] => inr []
  | x :: rest =>
      y ← f x;
      ys ← comprehension f rest;
      mret (y :: ys)
  end.

(** A computation that may send requests: it is given the addresses
    requested so far and returns them with its own added, oldest first. *)
Definition io (A : Type) : Type := list string → result A * list string.

#[export] Instance io_ret : MRet io := λ A x w, (inr x, w).

#[export] Instance io_bind : MBind io := λ A B f m w,
  match m w with
  | (inl e, w') => (inl e, w')
  | (inr x, w') => f x w'
  end.

Definition raise {A : Type} (e : exn) : io A := λ w, (inl e, w).

Definition lift {A : Type} (r : result A) : io A := λ w, (r, w).

(** * The class [wtss] *)

Module wtss.

(** A client object holds the address of the server. *)
Record t := { host : string }.

Definition __init__ (host : string) : t := {| host := host |}.

Section Methods.

(** The library functions the class calls.
    [urlopen uri] is [urllib2.urlopen(uri).read()]: the body of the
    answer, or the exception of the transport.
    [json_loads] is [json.loads].
    [strptime] is [datetime.strptime]. *)
Variable urlopen : string → result string.
Variable json_loads : string → result pyval.
Variable strptime : pyval → string → result datetime.

Definition _request (self : t) (uri : string) : io pyval :=
  doc ← (λ w, (urlopen uri, w ++ [uri]));
  lift (json_loads doc).

Definition list_coverages (self : t) : io pyval :=
  _request self (host self +:+ "/wtss/list_coverages").

Definition describe_coverage (self : t) (cv_name : string) : io pyval :=
  _request self (host self +:+ "/wtss/describe_coverage?name=" +:+ cv_name).

(** The arguments have the types of the docstring: [cv_name] is a [str],
    [latitude] and [longitude] are floats, a date is [None] or a [str];
    [attributes] is any object, since the method tests its type. The test
    [type(attributes) in [list, tuple]] and the test [type(attributes) is
    str] are the branches of the [match]. [x > y] on floats is [y < x]. *)
Definition time_series (self : t) (cv_name : string) (attributes : pyval)
    (latitude longitude : float) (start_date end_date : option string)
  : io pyval :=
  if negb (str_truthy cv_name) then
    raise (ValueError "Missing coverage name.")
  else if negb (truthy attributes) then
    raise (ValueError "Missing coverage attributes.")
  else
    attributes ←
      match attributes with
      | PList l | PTuple l => lift (str_join "," l)
      | PStr s => mret s
      | _ => raise (ValueError "attributes must be a list, tuple or string")
      end;
    if PrimFloat.ltb latitude (-90)%float || PrimFloat.ltb 90%float latitude then
      raise (ValueError "latitude is out-of range!")
    else if PrimFloat.ltb longitude (-180)%float
            || PrimFloat.ltb 180%float longitude then
      raise (ValueError "longitude is out-of range!")
    else
      let query_str :=
        host self +:+ "/wtss/time_series?coverage=" +:+ cv_name
        +:+ "&attributes=" +:+ attributes
        +:+ "&latitude=" +:+ format_f latitude
        +:+ "&longitude=" +:+ format_f longitude in
      let query_str :=
        match start_date, end_date with
        | Some s, Some e =>
            if str_truthy s && str_truthy e
            then query_str +:+ "&start=" +:+ s +:+ "&end=" +:+ e
            else query_str
        | _, _ => query_str
        end in
      _request self query_str.

Definition timeline (doc : pyval) (fmt : string) : result (list date) :=
  res ← getitem doc "result";
  str_timeline ← getitem res "timeline";
  items ← iter str_timeline;
  comprehension (λ t, dt ← strptime t fmt; mret (datetime_date dt)) items.

(** The loop of [values] over the items of [attrs], with the [raise] that
    follows it. *)
Fixpoint values_loop (attrs : list pyval) (attr_name : string)
  : result pyval :=
  match attrs with
  | [] =>
      inl (ValueError ("Time series for attribute '" +:+ attr_name
                       +:+ "' not found!"))
  | attr :: rest =>
      a ← getitem attr "attribute";
      if eq_str a attr_name then getitem attr "values"
      else values_loop rest attr_name
  end.

Definition values (doc : pyval) (attr_name : string) : result pyval :=
  res ← getitem doc "result";
  attrs ← getitem res "attributes";
  items ← iter attrs;
  values_loop items attr_name.

End Methods.

End wtss.

(** * Decoding a query string

    The decoding a server applies to the address it receives, after
    [urlparse.urlsplit] and [urlparse.parse_qsl] of the Python 2 library.
    It is not part of the client: the round trip of a coverage name is
    stated against it. *)

Module urlparse.

(** [s.split(c, 1)]: the text before the first [c], and the text after it
    when [c] occurs. *)
Fixpoint split1 (c : ascii) (s : string) : string * option string :=
  match s with
  | EmptyString => (EmptyString, None)
  | String x rest =>
      if Ascii.eqb x c then (EmptyString, Some rest)
      else let '(a, b) := split1 c rest in (String x a, b)
  end.

(** The query component of an address: the fragment is cut off at the
    first [#], the query starts after the first [?]. *)
Definition query (url : string) : string :=
  match split1 "?" (split1 "#" url).1 with
  | (_, Some q) => q
  | (_, None) => ""
  end.

Definition is_separator (c : ascii) : bool :=
  Ascii.eqb c "&" || Ascii.eqb c ";".

(** The fields of a query string, separated by [&] or [;]. *)
Fixpoint fields (s : string) : list string :=
  match s with
  | EmptyString => [EmptyString]
  | String c rest =>
      if is_separator c then EmptyString :: fields rest
      else
        match fields rest with
        | f :: fs => String c f :: fs
        | [] => [String c EmptyString]
        end
  end.

Definition hex_value (c : ascii) : option N :=
  let n := N_of_ascii c in
  if (48 <=? n)%N && (n <=? 57)%N then Some (n - 48)%N
  else if (65 <=? n)%N && (n <=? 70)%N then Some (n - 55)%N
  else if (97 <=? n)%N && (n <=? 102)%N then Some (n - 87)%N
  else None.

(** [unquote]: [%XX] becomes the byte [XX]; a [%] that two hexadecimal
    digits do not follow is kept. *)
Fixpoint unquote (s : string) : string :=
  match s with
  | EmptyString => EmptyString
  | String c rest =>
      if Ascii.eqb c "%" then
        match rest with
        | String a (String b rest') =>
            match hex_value a, hex_value b with
            | Some x, Some y => String (ascii_of_N (16 * x + y)) (unquote rest')
            | _, _ => String c (unquote rest)
            end
        | _ => String c (unquote rest)
        end
      else String c (unquote rest)
  end.

(** [s.replace('+', ' ')] *)
Fixpoint plus_to_space (s : string) : string :=
  match s with
  | EmptyString => EmptyString
  | String c rest =>
      String (if Ascii.eqb c "+" then " "%char else c) (plus_to_space rest)
  end.

(** One field [name=value]; a field without [=] or with a blank value is
    dropped. *)
Definition field_pair (f : string) : option (string * string) :=
  match split1 "=" f with
  | (n, Some v) =>
      if str_truthy v
      then Some (unquote (plus_to_space n), unquote (plus_to_space v))
      else None
  | (_, None) => None
  end.

(** [parse_qsl(qs)] *)
Definition parse_qsl (qs : string) : list (string * string) :=
  omap field_pair (fields qs).

(** The first value bound to [name] in a list of pairs. *)
Fixpoint first_value (name : string) (l : list (string * string))
  : option string :=
  match l with
  | [] => None
  | (k, v) :: rest => if String.eqb k name then Some v else first_value name rest
  end.

(** The value of parameter [name] in the query of [url]. *)
Definition parameter (name : string) (url : string) : option string :=
  first_value name (parse_qsl (query url)).

End urlparse.

(** * Sample environments

    Instances of the library functions, to run the methods on concrete
    inputs. *)

(** A transport without network: every request fails. *)
Definition offline : string → result string :=
  λ _, inl (URLError "[Errno 111] Connection refused").

(** A server that answers every request with [body]. *)
Definition serving (body : string) : string → result string :=
  λ _, inr body.

(** A decoder that rejects every body, as [json.loads] rejects text that is
    not JSON. *)
Definition no_json : string → result pyval :=
  λ _, inl (ValueError "No JSON object could be decoded").

(** A decoder that reads every body as [doc]. *)
Definition json_document (doc : pyval) : string → result pyval :=
  λ _, inr doc.

Definition digit_value (c : ascii) : option Z :=
  let n := Z.of_N (N_of_ascii c) in
  if (48 <=? n)%Z && (n <=? 57)%Z then Some (n - 48)%Z else None.

Definition number2 (a b : ascii) : option Z :=
  x ← digit_value a; y ← digit_value b; Some (10 * x + y)%Z.

Definition leap_year (y : Z) : bool :=
  ((y mod 4 =? 0) && negb (y mod 100 =? 0) || (y mod 400 =? 0))%Z.

Definition days_in_month (y m : Z) : Z :=
  if (m =? 2)%Z then (if leap_year y then 29 else 28)%Z
  else if ((m =? 4) || (m =? 6) || (m =? 9) || (m =? 11))%Z then 30%Z
  else 31%Z.

(** The fields of a date written [YYYY-MM-DD], all digits present. *)
Definition iso_fields (s : string) : option (Z * Z * Z) :=
  match s with
  | String y1 (String y2 (String y3 (String y4 (String sep1
      (String m1 (String m2 (String sep2 (String d1 (String d2
        EmptyString))))))))) =>
      if Ascii.eqb sep1 "-" && Ascii.eqb sep2 "-" then
        a ← number2 y1 y2; b ← number2 y3 y4;
        m ← number2 m1 m2; d ← number2 d1 d2;
        Some ((100 * a + b)%Z, m, d)
      else None
  | _ => None
  end.

(** A sample date parser, to run [timeline] on concrete documents. It is
    not [datetime.strptime]: it knows the one format [%Y-%m-%d] and reads
    only dates written with four, two and two digits. When it returns a
    date, [datetime.strptime] returns the same date for that text and
    format. It rejects more than [datetime.strptime] does (a month or day
    of one digit, any other format), and where both reject a text the
    messages can differ. *)
Definition strptime_iso (t : pyval) (fmt : string) : result datetime :=
  match t with
  | PStr s =>
      let mismatch :=
        ValueError ("time data '" +:+ s +:+ "' does not match format '"
                    +:+ fmt +:+ "'") in
      if String.eqb fmt "%Y-%m-%d" then
        match iso_fields s with
        | Some (y, m, d) =>
            if ((1 <=? y) && (1 <=? m) && (m <=? 12) && (1 <=? d)
                && (d <=? 31))%Z then
              if (d <=? days_in_month y m)%Z then
                inr {| dt_year := y; dt_month := m; dt_day := d;
                       dt_hour := 0; dt_minute := 0; dt_second := 0;
                       dt_microsecond := 0 |}
              else inl (ValueError "day is out of range for month")
            else inl mismatch
        | None => inl mismatch
        end
      else inl mismatch
  | v => inl (TypeError ("must be string, not " +:+ type_name (type v)))
  end.

(** The client of the example in the docstring of the class. *)
Definition inpe : wtss.t := wtss.__init__ "http://www.dpi.inpe.br/tws".

(** * Vocabulary of the properties *)

(** The text sent for [attributes]: the items of a sequence of strings
    joined by commas, a string as it is. *)
Inductive attributes_text : pyval → string → Prop :=
| text_of_list (l : list string) :
    attributes_text (PList (PStr <$> l)) (concat_sep "," l)
| text_of_tuple (l : list string) :
    attributes_text (PTuple (PStr <$> l)) (concat_sep "," l)
| text_of_str (s : string) :
    attributes_text (PStr s) s.

(** An empty sequence or string. *)
Definition empty_attributes (v : pyval) : Prop :=
  v = PList [] ∨ v = PTuple [] ∨ v = PStr "".

(** The address [time_series] builds, without dates. *)
Definition series_url (self : wtss.t) (cv_name attributes : string)
    (latitude longitude : float) : string :=
  wtss.host self +:+ "/wtss/time_series?coverage=" +:+ cv_name
  +:+ "&attributes=" +:+ attributes
  +:+ "&latitude=" +:+ format_f latitude
  +:+ "&longitude=" +:+ format_f longitude.

(** The two comparisons of a range check are both false. *)
Definition not_outside (lo hi x : float) : Prop :=
  PrimFloat.ltb x lo = false ∧ PrimFloat.ltb hi x = false.

(** [lo <= x <= hi] *)
Definition within (lo hi x : float) : Prop :=
  PrimFloat.leb lo x = true ∧ PrimFloat.leb x hi = true.

(** An optional argument that is given: a string that is not empty. *)
Definition supplied (o : option string) : Prop :=
  ∃ s, o = Some s ∧ s ≠ "".

(** A record of [result.attributes]: a [dict] with the keys [attribute]
    and [values]. *)
Definition is_record (v : pyval) (name vals : pyval) : Prop :=
  ∃ d, v = PDict d ∧ d !! "attribute" = Some name ∧ d !! "values" = Some vals.

Definition record (v : pyval) : Prop :=
  ∃ name vals, is_record v name vals.

(** The record [v] carries the name [attr_name]. *)
Definition named (attr_name : string) (v : pyval) : Prop :=
  ∃ vals, is_record v (PStr attr_name) vals.

(** [doc] is a mapping whose [result] is a mapping that binds [key] to [v]. *)
Definition has_result (doc : pyval) (key : string) (v : pyval) : Prop :=
  ∃ d r, doc = PDict d ∧ d !! "result" = Some (PDict r) ∧ r !! key = Some v.

(** The message of [values] for a name that is not found. *)
Definition not_found (attr_name : string) : exn :=
  ValueError ("Time series for attribute '" +:+ attr_name +:+ "' not found!").

(** The exceptions the five checks of [time_series] raise. *)
Definition validation_errors : list exn :=
  [ ValueError "Missing coverage name.";
    ValueError "Missing coverage attributes.";
    ValueError "attributes must be a list, tuple or string";
    ValueError "latitude is out-of range!";
    ValueError "longitude is out-of range!" ].

(** No character of [s] satisfies [p]. *)
Fixpoint free_of (p : ascii → bool) (s : string) : bool :=
  match s with
  | EmptyString => true
  | String c rest => negb (p c) && free_of p rest
  end.

(** The characters that end the path or the query of an address. *)
Definition delimiter (c : ascii) : bool :=
  Ascii.eqb c "?" || Ascii.eqb c "#".

(** The characters a query decoder does not read as themselves. *)
Definition reserved (c : ascii) : bool :=
  Ascii.eqb c "&" || Ascii.eqb c ";" || Ascii.eqb c "+" || Ascii.eqb c "%"
  || Ascii.eqb c "#".

(** A time series document with the given [result] entries. *)
Definition document (entries : list (string * pyval)) : pyval :=
  PDict {[ "result" := PDict (list_to_map entries) ]}.

(** The record [{"attribute": name, "values": vals}]. *)
Definition series (name : string) (vals : list Z) : pyval :=
  PDict {[ "attribute" := PStr name; "values" := PList (PInt <$> vals) ]}.

(** A document with two series and a timeline of two dates. *)
Definition sample_document : pyval :=
  document
    [ ("attributes", PList [series "red" [1; 2; 3]%Z; series "nir" [4; 5; 6]%Z;
                            series "red" [7; 8; 9]%Z]);
      ("timeline", PList [PStr "2020-01-01"; PStr "2020-01-17"]) ].


(** * Properties *)

(** ** Strings and floats *)

Lemma append_empty_r (s : string) : s +:+ "" = s.
Proof.
  induction s as [|c s IH]; [done|].
  change (String c (s +:+ "") = String c s). by rewrite IH.
Qed.

Lemma append_assoc (a b c : string) : (a +:+ b) +:+ c = a +:+ b +:+ c.
Proof.
  induction a as [|x a IH]; [done|].
  change (String x ((a +:+ b) +:+ c) = String x (a +:+ b +:+ c)).
  by rewrite IH.
Qed.

Lemma str_truthy_true (s : string) : s ≠ "" → str_truthy s = true.
Proof. by destruct s. Qed.

Lemma SFcompare_swap (x y : spec_float) :
  SFcompare y x = CompOpp <$> SFcompare x y.
Proof.
  destruct x as [[]|[]| |[] m e], y as [[]|[]| |[] m' e']; simpl; try done;
    rewrite (Z.compare_antisym e e'); destruct (e ?= e')%Z; simpl; try done;
    change (Pos.compare_cont Eq m m') with (m ?= m')%positive;
    change (Pos.compare_cont Eq m' m) with (m' ?= m)%positive;
    rewrite (Pos.compare_antisym m m'); by destruct (m ?= m')%positive.
Qed.

(** [x <= y] excludes [y < x]. *)
Lemma leb_not_ltb (x y : float) :
  PrimFloat.leb x y = true → PrimFloat.ltb y x = false.
Proof.
  rewrite leb_spec, ltb_spec. unfold SFleb, SFltb.
  rewrite (SFcompare_swap (Prim2SF x) (Prim2SF y)).
  by destruct (SFcompare (Prim2SF x) (Prim2SF y)) as [[]|].
Qed.

Lemma within_not_outside (lo hi x : float) :
  within lo hi x → not_outside lo hi x.
Proof. intros [H1 H2]. split; by apply leb_not_ltb. Qed.

Section Requests.

Variable urlopen : string → result string.
Variable json_loads : string → result pyval.

Abbreviation time_series := (wtss.time_series urlopen json_loads).
Abbreviation _request := (wtss._request urlopen json_loads).

(** ** Auxiliary facts *)

Lemma first_non_str_strings (i : nat) (l : list string) :
  first_non_str i (PStr <$> l) = None.
Proof. revert i. induction l as [|s l IH]; intros i; csimpl; [done | apply IH]. Qed.

Lemma str_items_strings (l : list string) : str_items (PStr <$> l) = l.
Proof. induction l as [|s l IH]; csimpl; [done | by rewrite IH]. Qed.

Lemma concat_sep_three (a b c : string) :
  concat_sep "," [a; b; c] = a +:+ "," +:+ b +:+ "," +:+ c.
Proof. done. Qed.

Lemma str_join_strings (sep : string) (l : list string) :
  str_join sep (PStr <$> l) = inr (concat_sep sep l).
Proof.
  unfold str_join. by rewrite first_non_str_strings, str_items_strings.
Qed.

(** A request adds its address, and only it, to the addresses requested. *)
Lemma request_sent (self : wtss.t) (uri : string) (w : list string) :
  (_request self uri w).2 = w ++ [uri].
Proof.
  unfold wtss._request, mbind, io_bind, lift.
  by destruct (urlopen uri).
Qed.

Lemma request_not_silent (self : wtss.t) (uri : string) (w : list string)
    (r : result pyval) :
  _request self uri w ≠ (r, w).
Proof.
  intros H. pose proof (request_sent self uri w) as Hs.
  rewrite H in Hs. simpl in Hs.
  apply (f_equal length) in Hs. rewrite length_app in Hs. simpl in Hs. lia.
Qed.

(** What [time_series] does once [attributes] has become the text [a]. *)
Definition after_join (self : wtss.t) (cv_name a : string)
    (latitude longitude : float) (start_date end_date : option string)
  : io pyval :=
  if PrimFloat.ltb latitude (-90)%float || PrimFloat.ltb 90%float latitude then
    raise (ValueError "latitude is out-of range!")
  else if PrimFloat.ltb longitude (-180)%float
          || PrimFloat.ltb 180%float longitude then
    raise (ValueError "longitude is out-of range!")
  else
    _request self
      (match start_date, end_date with
       | Some s, Some e =>
           if str_truthy s && str_truthy e
           then series_url self cv_name a latitude longitude
                +:+ "&start=" +:+ s +:+ "&end=" +:+ e
           else series_url self cv_name a latitude longitude
       | _, _ => series_url self cv_name a latitude longitude
       end).

(** What the third check of [time_series] makes of [attributes]. *)
Definition attributes_string (attributes : pyval) : result string :=
  match attributes with
  | PList l | PTuple l => str_join "," l
  | PStr s => inr s
  | _ => inl (ValueError "attributes must be a list, tuple or string")
  end.

Lemma time_series_join (self : wtss.t) (cv_name : string) (attributes : pyval)
    (latitude longitude : float) (start_date end_date : option string)
    (w : list string) :
  cv_name ≠ "" → truthy attributes = true →
  time_series self cv_name attributes latitude longitude start_date end_date w
  = match attributes_string attributes with
    | inl e => (inl e, w)
    | inr a => after_join self cv_name a latitude longitude start_date end_date w
    end.
Proof.
  intros Hcv Ht. unfold wtss.time_series, after_join.
  rewrite (str_truthy_true _ Hcv), Ht. cbn [negb].
  unfold mbind at 1. unfold io_bind at 1.
  assert (∀ a,
    (if PrimFloat.ltb latitude (-90)%float || PrimFloat.ltb 90%float latitude
     then raise (ValueError "latitude is out-of range!")
     else if PrimFloat.ltb longitude (-180)%float
             || PrimFloat.ltb 180%float longitude
     then raise (ValueError "longitude is out-of range!")
     else _request self
       (let query_str :=
          wtss.host self +:+ "/wtss/time_series?coverage=" +:+ cv_name
          +:+ "&attributes=" +:+ a
          +:+ "&latitude=" +:+ format_f latitude
          +:+ "&longitude=" +:+ format_f longitude in
        match start_date, end_date with
        | Some s, Some e =>
            if str_truthy s && str_truthy e
            then query_str +:+ "&start=" +:+ s +:+ "&end=" +:+ e
            else query_str
        | _, _ => query_str
        end)) w
    = after_join self cv_name a latitude longitude start_date end_date w)
    as Hafter.
  { intros a. unfold after_join, series_url.
    (destruct (_ || _); [done|]); (destruct (_ || _); [done|]).
    by destruct start_date as [s'|], end_date as [e'|];
      try destruct (str_truthy s' && str_truthy e'). }
  destruct attributes as [| | | |s|l|l|d]; try done;
    unfold attributes_string, lift, mret, io_ret;
    try (destruct (str_join "," l) as [e|a]; [done|]); apply Hafter.
Qed.

Lemma attributes_text_string (attributes : pyval) (a : string) :
  attributes_text attributes a → attributes_string attributes = inr a.
Proof. intros []; simpl; by rewrite ?str_join_strings. Qed.

Lemma attributes_text_truthy (attributes : pyval) (a : string) :
  attributes_text attributes a → ¬ empty_attributes attributes →
  truthy attributes = true.
Proof.
  intros Ha Hne.
  destruct Ha as [[|s l]|[|s l]|[|c s]]; simpl; try done;
    exfalso; apply Hne; unfold empty_attributes; auto.
Qed.

Lemma time_series_text (self : wtss.t) (cv_name : string) (attributes : pyval)
    (a : string) (latitude longitude : float)
    (start_date end_date : option string) (w : list string) :
  cv_name ≠ "" → ¬ empty_attributes attributes →
  attributes_text attributes a →
  time_series self cv_name attributes latitude longitude start_date end_date w
  = after_join self cv_name a latitude longitude start_date end_date w.
Proof.
  intros Hcv Hne Ha.
  rewrite time_series_join by eauto using attributes_text_truthy.
  by rewrite (attributes_text_string _ _ Ha).
Qed.

Lemma empty_name_raises (self : wtss.t) (attributes : pyval)
    (latitude longitude : float) (start_date end_date : option string)
    (w : list string) :
  time_series self "" attributes latitude longitude start_date end_date w
  = (inl (ValueError "Missing coverage name."), w).
Proof. done. Qed.

Lemma falsy_attributes_raise (self : wtss.t) (cv_name : string)
    (attributes : pyval) (latitude longitude : float)
    (start_date end_date : option string) (w : list string) :
  cv_name ≠ "" → truthy attributes = false →
  time_series self cv_name attributes latitude longitude start_date end_date w
  = (inl (ValueError "Missing coverage attributes."), w).
Proof.
  intros Hcv He. unfold wtss.time_series.
  by rewrite (str_truthy_true _ Hcv), He.
Qed.

Lemma empty_attributes_falsy (v : pyval) : empty_attributes v → truthy v = false.
Proof. by intros [-> | [-> | ->]]. Qed.

(** The address with or without dates is the address without dates and a
    suffix. *)
Lemma dates_suffix (u : string) (start_date end_date : option string) :
  ∃ dates,
    match start_date, end_date with
    | Some s, Some e =>
        if str_truthy s && str_truthy e
        then u +:+ "&start=" +:+ s +:+ "&end=" +:+ e
        else u
    | _, _ => u
    end = u +:+ dates.
Proof.
  destruct start_date as [s|], end_date as [e|];
    try destruct (str_truthy s && str_truthy e);
    first [ by eexists | by exists ""; rewrite append_empty_r ].
Qed.

(** A call sends nothing, or one address built from the text of its
    attributes. *)
Lemma time_series_sent (self : wtss.t) (cv_name : string) (attributes : pyval)
    (latitude longitude : float) (start_date end_date : option string)
    (w : list string) (r : result pyval) (w' : list string) :
  time_series self cv_name attributes latitude longitude start_date end_date w
  = (r, w') →
  w' = w
  ∨ ∃ a dates,
      attributes_string attributes = inr a
      ∧ w' = w ++ [series_url self cv_name a latitude longitude +:+ dates].
Proof.
  intros H.
  destruct (decide (cv_name = "")) as [->|Hcv].
  { rewrite empty_name_raises in H. left. congruence. }
  destruct (truthy attributes) eqn:Ht.
  2:{ rewrite falsy_attributes_raise in H by done. left. congruence. }
  rewrite time_series_join in H by done.
  destruct (attributes_string attributes) as [e|a]; [left; congruence|].
  unfold after_join in H.
  destruct (_ || _); [left; unfold raise in H; congruence|].
  destruct (_ || _); [left; unfold raise in H; congruence|].
  destruct (dates_suffix (series_url self cv_name a latitude longitude)
              start_date end_date) as [dates Hdates].
  right. exists a, dates. split; [done|]. rewrite <- Hdates.
  apply (f_equal snd) in H. simpl in H. rewrite <- H. apply request_sent.
Qed.

(** ** Missing arguments *)

(** C2. A call of [time_series] with an empty coverage name fails with
    [ValueError("Missing coverage name.")]; with a coverage name that is not
    empty and empty attributes, it fails with
    [ValueError("Missing coverage attributes.")]. In both cases the
    addresses requested are unchanged: no request is sent. *)
Theorem missing_arguments (self : wtss.t) (cv_name : string)
    (attributes : pyval) (latitude longitude : float)
    (start_date end_date : option string) (w : list string) :
  (cv_name = "" →
   time_series self cv_name attributes latitude longitude start_date end_date w
   = (inl (ValueError "Missing coverage name."), w))
  ∧ (cv_name ≠ "" → empty_attributes attributes →
     time_series self cv_name attributes latitude longitude start_date end_date w
     = (inl (ValueError "Missing coverage attributes."), w)).
Proof.
  split.
  - intros ->. apply empty_name_raises.
  - intros Hcv He. by apply falsy_attributes_raise, empty_attributes_falsy.
Qed.

(** ** The attributes parameter *)

(** C1. When [attributes] is a list or tuple of strings, the text [a] of
    the parameter is its items joined by commas; when it is a string, [a]
    is that string. Every address a call of [time_series] requests is then
    [<host>/wtss/time_series?coverage=<cv_name>&attributes=<a>&latitude=..&longitude=..]
    followed by the dates, if any; and a call that passes the checks
    requests such an address. *)
Theorem attributes_parameter (self : wtss.t) (cv_name : string)
    (attributes : pyval) (a : string) (latitude longitude : float)
    (start_date end_date : option string) (w : list string) :
  attributes_text attributes a →
  (∀ r w',
     time_series self cv_name attributes latitude longitude start_date end_date w
     = (r, w') →
     w' = w ∨
     ∃ dates, w' = w ++ [series_url self cv_name a latitude longitude +:+ dates])
  ∧ (cv_name ≠ "" → ¬ empty_attributes attributes →
     not_outside (-90) 90 latitude → not_outside (-180) 180 longitude →
     ∃ dates,
       (time_series self cv_name attributes latitude longitude
          start_date end_date w).2
       = w ++ [series_url self cv_name a latitude longitude +:+ dates]).
Proof.
  intros Ha. split.
  - intros r w' H.
    apply time_series_sent in H as [->|(a' & dates & Hs & ->)]; [by left|].
    rewrite (attributes_text_string _ _ Ha) in Hs. injection Hs as <-.
    right. by exists dates.
  - intros Hcv He [Hl1 Hl2] [Hg1 Hg2].
    rewrite (time_series_text _ _ _ _ _ _ _ _ _ Hcv He Ha).
    unfold after_join. rewrite Hl1, Hl2, Hg1, Hg2. simpl orb. cbv iota.
    destruct (dates_suffix (series_url self cv_name a latitude longitude)
                start_date end_date) as [dates Hdates].
    exists dates. rewrite <- Hdates. apply request_sent.
Qed.

(** ** The optional dates *)

(** C4. For a call of [time_series] that passes the checks: when
    [start_date] and [end_date] are both given (strings that are not
    empty), the address requested is the address without dates followed by
    [&start=<start_date>&end=<end_date>], the two strings as they are; when
    exactly one of them is given, the address requested is the address
    without dates, to which nothing is added. *)
Theorem optional_dates (self : wtss.t) (cv_name : string)
    (attributes : pyval) (a : string) (latitude longitude : float)
    (start_date end_date : option string) (w : list string) :
  cv_name ≠ "" → ¬ empty_attributes attributes →
  attributes_text attributes a →
  not_outside (-90) 90 latitude → not_outside (-180) 180 longitude →
  (∀ s e, start_date = Some s → end_date = Some e → s ≠ "" → e ≠ "" →
     time_series self cv_name attributes latitude longitude start_date end_date w
     = _request self
         (series_url self cv_name a latitude longitude
          +:+ "&start=" +:+ s +:+ "&end=" +:+ e) w)
  ∧ ((supplied start_date ∧ ¬ supplied end_date)
     ∨ (¬ supplied start_date ∧ supplied end_date) →
     time_series self cv_name attributes latitude longitude start_date end_date w
     = _request self (series_url self cv_name a latitude longitude) w).
Proof.
  intros Hcv He Ha [Hl1 Hl2] [Hg1 Hg2].
  rewrite (time_series_text _ _ _ _ _ _ _ _ _ Hcv He Ha).
  unfold after_join. rewrite Hl1, Hl2, Hg1, Hg2. simpl orb. cbv iota.
  split.
  - intros s e -> -> Hs Hne.
    by rewrite (str_truthy_true _ Hs), (str_truthy_true _ Hne).
  - unfold supplied.
    intros [[(s & -> & Hs) Hn] | [Hn (e & -> & Hne)]].
    + destruct end_date as [[|c e]|]; [by rewrite andb_false_r| |done].
      exfalso. apply Hn. by eexists.
    + destruct start_date as [[|c s]|]; [done| |done].
      exfalso. apply Hn. by eexists.
Qed.

(** ** The range checks *)

(** C3, as amended. For a call of [time_series] whose coverage name is not
    empty and whose attributes are a string or a sequence of strings, not
    empty: a latitude below -90.0 or above 90.0 fails with
    [ValueError("latitude is out-of range!")]; a latitude within the range
    with a longitude below -180.0 or above 180.0 fails with
    [ValueError("longitude is out-of range!")]; in both cases no request is
    sent. With a latitude of -90.0 or 90.0 and a longitude of -180.0 or
    180.0 the checks pass and the request is sent. *)
Theorem range_checks (self : wtss.t) (cv_name : string)
    (attributes : pyval) (a : string) (latitude longitude : float)
    (start_date end_date : option string) (w : list string) :
  cv_name ≠ "" → ¬ empty_attributes attributes →
  attributes_text attributes a →
  (PrimFloat.ltb latitude (-90)%float = true
   ∨ PrimFloat.ltb 90%float latitude = true →
   time_series self cv_name attributes latitude longitude start_date end_date w
   = (inl (ValueError "latitude is out-of range!"), w))
  ∧ (within (-90) 90 latitude →
     PrimFloat.ltb longitude (-180)%float = true
     ∨ PrimFloat.ltb 180%float longitude = true →
     time_series self cv_name attributes latitude longitude start_date end_date w
     = (inl (ValueError "longitude is out-of range!"), w))
  ∧ (latitude = (-90)%float ∨ latitude = 90%float →
     longitude = (-180)%float ∨ longitude = 180%float →
     ∃ url,
       time_series self cv_name attributes latitude longitude
         start_date end_date w
       = _request self url w).
Proof.
  intros Hcv He Ha.
  rewrite (time_series_text _ _ _ _ _ _ _ _ _ Hcv He Ha).
  unfold after_join. split; [|split].
  - intros [-> | ->]; [done|]. by rewrite orb_true_r.
  - intros [-> ->]%within_not_outside [-> | ->]; [done|].
    by rewrite orb_true_r.
  - intros [-> | ->] [-> | ->]; by eexists.
Qed.

(** ** The shape of the attributes *)

(** C7, as amended. A call of [time_series] whose coverage name is not
    empty and whose attributes are a true value that is neither a list, nor
    a tuple, nor a string (a number, a mapping) fails with
    [ValueError("attributes must be a list, tuple or string")], and no
    request is sent. *)
Theorem attributes_shape (self : wtss.t) (cv_name : string)
    (attributes : pyval) (latitude longitude : float)
    (start_date end_date : option string) (w : list string) :
  cv_name ≠ "" → truthy attributes = true →
  type attributes ∉ [list_t; tuple_t; str_t] →
  time_series self cv_name attributes latitude longitude start_date end_date w
  = (inl (ValueError "attributes must be a list, tuple or string"), w).
Proof.
  intros Hcv Ht Hty. unfold wtss.time_series.
  rewrite (str_truthy_true _ Hcv), Ht.
  destruct attributes; try done; exfalso; apply Hty; simpl;
    rewrite !elem_of_cons; auto.
Qed.

End Requests.

(** ** Documents *)

Section Documents.

Variable strptime : pyval → string → result datetime.

Abbreviation timeline := (wtss.timeline strptime).

Lemma getitem_result (doc : pyval) (key : string) (v : pyval) :
  has_result doc key v →
  (res ← getitem doc "result"; getitem res key) = inr v.
Proof. intros (d & r & -> & Hd & Hr). simpl. rewrite Hd. simpl. by rewrite Hr. Qed.

Lemma eq_str_true (v : pyval) (s : string) : eq_str v s = true ↔ v = PStr s.
Proof.
  destruct v; simpl; try (split; [discriminate | congruence]).
  rewrite String.eqb_eq. split; congruence.
Qed.

(** The loop passes over a record that has another name. *)
Lemma values_loop_skip (attr_name : string) (v : pyval) (rest : list pyval) :
  record v → ¬ named attr_name v →
  wtss.values_loop (v :: rest) attr_name = wtss.values_loop rest attr_name.
Proof.
  intros (name & vals & d & -> & Hn & Hv) Hnot. simpl. rewrite Hn. simpl.
  destruct (eq_str name attr_name) eqn:E; [|done].
  apply eq_str_true in E as ->. exfalso. apply Hnot. exists vals, d. done.
Qed.

Lemma values_loop_prefix (attr_name : string) (pre rest : list pyval) :
  Forall record pre → Forall (λ v, ¬ named attr_name v) pre →
  wtss.values_loop (pre ++ rest) attr_name = wtss.values_loop rest attr_name.
Proof.
  induction 1 as [|v pre Hv _ IH]; intros Hnot; [done|].
  apply Forall_cons in Hnot as [Hn Hnot].
  rewrite <- app_comm_cons, values_loop_skip by done. by apply IH.
Qed.

Lemma values_loop_hit (attr_name : string) (v vals : pyval) (rest : list pyval) :
  is_record v (PStr attr_name) vals →
  wtss.values_loop (v :: rest) attr_name = inr vals.
Proof.
  intros (d & -> & Hn & Hv). simpl. rewrite Hn. simpl.
  rewrite String.eqb_refl. by rewrite Hv.
Qed.

Lemma values_result (doc : pyval) (attrs : list pyval) (attr_name : string) :
  has_result doc "attributes" (PList attrs) →
  wtss.values doc attr_name = wtss.values_loop attrs attr_name.
Proof.
  intros (d & r & -> & Hd & Hr). unfold wtss.values. simpl.
  rewrite Hd. simpl. by rewrite Hr.
Qed.

(** C5. For a document whose [result.attributes] is a list of records and
    any attribute name: [values] returns the [values] field of the first
    record, in the order of the list, whose [attribute] field is that name,
    whatever follows it; when no record has that name it fails with
    [ValueError("Time series for attribute '<attr_name>' not found!")]. *)
Theorem values_first_match (doc : pyval) (attrs : list pyval)
    (attr_name : string) :
  has_result doc "attributes" (PList attrs) →
  Forall record attrs →
  (∀ pre v post vals,
     attrs = pre ++ v :: post →
     Forall (λ u, ¬ named attr_name u) pre →
     is_record v (PStr attr_name) vals →
     wtss.values doc attr_name = inr vals)
  ∧ (Forall (λ u, ¬ named attr_name u) attrs →
     wtss.values doc attr_name = inl (not_found attr_name)).
Proof.
  intros Hdoc Hrec. rewrite (values_result _ _ _ Hdoc). split.
  - intros pre v post vals -> Hpre Hv.
    apply Forall_app in Hrec as [Hrec _].
    rewrite values_loop_prefix by done. by apply values_loop_hit.
  - intros Hnone.
    rewrite <- (app_nil_r attrs). by rewrite values_loop_prefix.
Qed.

Lemma timeline_result (doc : pyval) (ts : list pyval) (fmt : string) :
  has_result doc "timeline" (PList ts) ∨ has_result doc "timeline" (PTuple ts) →
  timeline doc fmt
  = comprehension (λ t, dt ← strptime t fmt; mret (datetime_date dt)) ts.
Proof.
  intros [(d & r & -> & Hd & Hr) | (d & r & -> & Hd & Hr)];
    unfold wtss.timeline; simpl; rewrite Hd; simpl; by rewrite Hr.
Qed.

Lemma comprehension_all {A B : Type} (f : A → result B) (l : list A)
    (l' : list B) :
  Forall2 (λ x y, f x = inr y) l l' → comprehension f l = inr l'.
Proof.
  induction 1 as [|x y l l' Hxy _ IH]; [done|].
  simpl. rewrite Hxy. simpl. by rewrite IH.
Qed.

Lemma comprehension_first_error {A B : Type} (f : A → result B)
    (pre : list A) (x : A) (post : list A) (e : exn) :
  Forall (λ y, ∃ z, f y = inr z) pre → f x = inl e →
  comprehension f (pre ++ x :: post) = inl e.
Proof.
  induction 1 as [|y pre [z Hz] _ IH]; intros Hx; simpl.
  - by rewrite Hx.
  - rewrite Hz. simpl. by rewrite IH.
Qed.

(** A list with a failing item splits at the first one. *)
Lemma first_failure {A B : Type} (f : A → result B) (l : list A) :
  (∃ x e, x ∈ l ∧ f x = inl e) →
  ∃ pre x post e,
    l = pre ++ x :: post ∧ Forall (λ y, ∃ z, f y = inr z) pre ∧ f x = inl e.
Proof.
  induction l as [|y l IH]; intros (x & e & Hin & Hx).
  - by apply elem_of_nil in Hin.
  - destruct (f y) as [e'|z] eqn:Hy.
    + by exists [], y, l, e'.
    + apply elem_of_cons in Hin as [-> | Hin]; [congruence|].
      destruct IH as (pre & x' & post & e' & -> & Hpre & Hx'); [by eauto|].
      exists (y :: pre), x', post, e'. split; [done|]. split; [|done].
      constructor; eauto.
Qed.

(** C6. For a document whose [result.timeline] is a list of entries:
    when [strptime] parses every entry with [fmt], [timeline] returns the
    dates parsed, one for each entry and in the order of the entries; when
    some entry does not match [fmt], [timeline] fails with the exception
    [strptime] raises for the first such entry. *)
Theorem timeline_parses (doc : pyval) (ts : list pyval) (fmt : string) :
  has_result doc "timeline" (PList ts) →
  (∀ dts, Forall2 (λ t dt, strptime t fmt = inr dt) ts dts →
     timeline doc fmt = inr (datetime_date <$> dts)
     ∧ length (datetime_date <$> dts) = length ts)
  ∧ ((∃ t e, t ∈ ts ∧ strptime t fmt = inl e) →
     ∃ pre t post e,
       ts = pre ++ t :: post
       ∧ Forall (λ u, ∃ dt, strptime u fmt = inr dt) pre
       ∧ strptime t fmt = inl e
       ∧ timeline doc fmt = inl e).
Proof.
  intros Hdoc. rewrite (timeline_result doc ts fmt) by auto. split.
  - intros dts Hall. split.
    + apply comprehension_all. clear Hdoc.
      induction Hall as [|t dt ts dts Ht _ IH]; [constructor|].
      csimpl. constructor; [|done]. by rewrite Ht.
    + rewrite length_fmap. symmetry. by eapply Forall2_length.
  - intros Hfail.
    set (f := λ t, dt ← strptime t fmt; mret (datetime_date dt)).
    destruct (first_failure f ts) as (pre & t & post & e & -> & Hpre & Ht).
    { destruct Hfail as (t & e & Hin & Ht). exists t, e. split; [done|].
      unfold f. by rewrite Ht. }
    exists pre, t, post, e. split; [done|].
    assert (strptime t fmt = inl e) as Ht'.
    { unfold f, mbind, result_bind in Ht.
      destruct (strptime t fmt); [congruence | discriminate]. }
    split; [|split; [done|]].
    + eapply Forall_impl; [exact Hpre|]. intros u [z Hz].
      unfold f, mbind, result_bind in Hz.
      destruct (strptime u fmt) as [|dt]; [discriminate | eauto].
    + by apply comprehension_first_error.
Qed.

(** C10. For a document whose [result.timeline] is an empty list or
    tuple, [timeline] returns the empty list, whatever the format; it does
    not raise. *)
Theorem timeline_empty (doc : pyval) (fmt : string) :
  has_result doc "timeline" (PList []) ∨ has_result doc "timeline" (PTuple []) →
  timeline doc fmt = inr [].
Proof. intros H. by rewrite (timeline_result doc [] fmt). Qed.

End Documents.

(** ** Exceptions *)

























Lemma getitem_error (v : pyval) (k : string) (e : exn) :
  getitem v k = inl e → class_of e ≠ ValueError_c.
Proof.
  destruct v as [| | | | | | |d]; simpl; try (intros [= <-]; done).
  destruct (d !! k); [done|]. by intros [= <-].
Qed.

Lemma iter_error (v : pyval) (e : exn) :
  iter v = inl e → class_of e ≠ ValueError_c.
Proof. destruct v; simpl; try done; by intros [= <-]. Qed.

Lemma str_join_error (sep : string) (l : list pyval) (e : exn) :
  str_join sep l = inl e → class_of e = TypeError_c.
Proof.
  unfold str_join. destruct (first_non_str 0 l) as [[i v]|]; [|done].
  by intros [= <-].
Qed.

Lemma values_loop_error (l : list pyval) (attr_name : string) (e : exn) :
  wtss.values_loop l attr_name = inl e → class_of e = ValueError_c →
  e = not_found attr_name.
Proof.
  induction l as [|v l IH]; simpl.
  - by intros [= <-].
  - destruct (getitem v "attribute") as [e'|a] eqn:Ha; simpl.
    + intros [= <-] Hc. by apply getitem_error in Ha.
    + destruct (eq_str a attr_name); [|done].
      intros He Hc. by apply getitem_error in He.
Qed.

Lemma values_error (doc : pyval) (attr_name : string) (e : exn) :
  wtss.values doc attr_name = inl e → class_of e = ValueError_c →
  e = not_found attr_name.
Proof.
  unfold wtss.values.
  destruct (getitem doc "result") as [e'|res] eqn:H1; simpl.
  { intros [= <-] Hc. by apply getitem_error in H1. }
  destruct (getitem res "attributes") as [e'|attrs] eqn:H2; simpl.
  { intros [= <-] Hc. by apply getitem_error in H2. }
  destruct (iter attrs) as [e'|items] eqn:H3; simpl.
  { intros [= <-] Hc. by apply iter_error in H3. }
  apply values_loop_error.
Qed.

Lemma not_found_fresh (attr_name : string) :
  not_found attr_name ∉ validation_errors.
Proof.
  unfold not_found, validation_errors.
  change ("Time series for attribute '" +:+ attr_name +:+ "' not found!")
    with (String "T" ("ime series for attribute '" +:+ attr_name
                      +:+ "' not found!")).
  rewrite !elem_of_cons, elem_of_nil. intros [?|[?|[?|[?|[?|[]]]]]]; discriminate.
Qed.



Section Errors.

Variable urlopen : string → result string.
Variable json_loads : string → result pyval.
Variable strptime : pyval → string → result datetime.

Abbreviation time_series := (wtss.time_series urlopen json_loads).
Abbreviation _request := (wtss._request urlopen json_loads).
Abbreviation timeline := (wtss.timeline strptime).

(** A [ValueError] that [time_series] raises without sending a request
    comes from one of its checks. *)
Lemma time_series_silent_error (self : wtss.t) (cv_name : string)
    (attributes : pyval) (latitude longitude : float)
    (start_date end_date : option string) (w : list string) (e : exn) :
  time_series self cv_name attributes latitude longitude start_date end_date w
  = (inl e, w) →
  class_of e = ValueError_c →
  e ∈ validation_errors.
Proof.
  unfold validation_errors. intros H Hc.
  destruct (decide (cv_name = "")) as [->|Hcv].
  { rewrite empty_name_raises in H. injection H as <-. set_solver. }
  destruct (truthy attributes) eqn:Ht.
  2:{ rewrite falsy_attributes_raise in H by done. injection H as <-.
      set_solver. }
  rewrite time_series_join in H by done.
  destruct (attributes_string attributes) as [e'|a] eqn:Hs.
  { injection H as <-. destruct attributes; simpl in Hs;
      try discriminate;
      try (injection Hs as <-; set_solver);
      apply str_join_error in Hs; congruence. }
  unfold after_join in H.
  destruct (_ || _); [injection H as <-; set_solver|].
  destruct (_ || _); [injection H as <-; set_solver|].
  by apply request_not_silent in H.
Qed.






End Errors.

(** ** Decoding what was sent *)

Lemma append_cons (c : ascii) (a b : string) :
  String c a +:+ b = String c (a +:+ b).
Proof. done. Qed.

Lemma free_of_app (p : ascii → bool) (a b : string) :
  free_of p (a +:+ b) = free_of p a && free_of p b.
Proof.
  induction a as [|c a IH]; [done|].
  rewrite append_cons. simpl. rewrite IH. by rewrite andb_assoc.
Qed.

Lemma free_of_weaken (p q : ascii → bool) (s : string) :
  (∀ c, q c = true → p c = true) →
  free_of p s = true → free_of q s = true.
Proof.
  intros Hpq. induction s as [|c s IH]; [done|]. simpl.
  intros [Hc Hs]%andb_true_iff. rewrite IH by done.
  destruct (q c) eqn:Hq; [|done]. by rewrite (Hpq c Hq) in Hc.
Qed.

Lemma split1_free (c : ascii) (a b : string) :
  free_of (λ x, Ascii.eqb x c) a = true →
  urlparse.split1 c (a +:+ b)
  = (a +:+ (urlparse.split1 c b).1, (urlparse.split1 c b).2).
Proof.
  induction a as [|x a IH].
  - intros _. change ("" +:+ b) with b.
    by destruct (urlparse.split1 c b).
  - simpl. intros [Hx Ha]%andb_true_iff.
    apply negb_true_iff in Hx. by rewrite Hx, (IH Ha).
Qed.

Lemma split1_at (c : ascii) (a b : string) :
  free_of (λ x, Ascii.eqb x c) a = true →
  urlparse.split1 c (a +:+ String c b) = (a, Some b).
Proof.
  intros Ha. rewrite (split1_free c a _ Ha). simpl.
  rewrite Ascii.eqb_refl. simpl. by rewrite append_empty_r.
Qed.

Lemma fields_free (a : string) :
  free_of urlparse.is_separator a = true → urlparse.fields a = [a].
Proof.
  induction a as [|c a IH]; [done|]. simpl.
  intros [Hc Ha]%andb_true_iff. apply negb_true_iff in Hc.
  by rewrite Hc, (IH Ha).
Qed.

Lemma fields_first (a : string) (c : ascii) (rest : string) :
  free_of urlparse.is_separator a = true → urlparse.is_separator c = true →
  urlparse.fields (a +:+ String c rest) = a :: urlparse.fields rest.
Proof.
  intros Ha Hc. induction a as [|x a IH].
  - simpl. change ("" +:+ String c rest) with (String c rest). simpl.
    by rewrite Hc.
  - simpl in Ha. apply andb_true_iff in Ha as [Hx Ha].
    apply negb_true_iff in Hx. rewrite append_cons. simpl.
    by rewrite Hx, (IH Ha).
Qed.

Lemma unquote_plain (s : string) :
  free_of (λ c, Ascii.eqb c "%") s = true → urlparse.unquote s = s.
Proof.
  induction s as [|c s IH]; [done|]. simpl.
  intros [Hc Hs]%andb_true_iff. apply negb_true_iff in Hc.
  by rewrite Hc, (IH Hs).
Qed.

Lemma plus_to_space_plain (s : string) :
  free_of (λ c, Ascii.eqb c "+") s = true → urlparse.plus_to_space s = s.
Proof.
  induction s as [|c s IH]; [done|]. simpl.
  intros [Hc Hs]%andb_true_iff. apply negb_true_iff in Hc.
  by rewrite Hc, (IH Hs).
Qed.

Lemma reserved_free (c : ascii) (s : string) :
  reserved c = true → free_of reserved s = true →
  free_of (λ x, Ascii.eqb x c) s = true.
Proof.
  intros Hc. apply free_of_weaken. by intros x ->%Ascii.eqb_eq.
Qed.

(** A field [name=value] without reserved characters is read as it is. *)
Lemma field_pair_plain (name value : string) :
  free_of reserved name = true →
  free_of (λ c, Ascii.eqb c "=") name = true →
  value ≠ "" → free_of reserved value = true →
  urlparse.field_pair (name +:+ String "=" value) = Some (name, value).
Proof.
  intros Hn Heq Hv Hr. unfold urlparse.field_pair.
  rewrite (split1_at "=" name value Heq), (str_truthy_true _ Hv).
  by rewrite !plus_to_space_plain, !unquote_plain by by apply reserved_free.
Qed.

(** The decoder finds [value] under [name] at the head of the query, up to
    the next [&] or the end of the address. *)
Lemma parameter_head (base name value tail : string) :
  free_of delimiter base = true →
  free_of reserved name = true →
  free_of (λ c, Ascii.eqb c "=") name = true →
  value ≠ "" → free_of reserved value = true →
  tail = "" ∨ (∃ t, tail = String "&" t) →
  urlparse.parameter name
    (base +:+ String "?" (name +:+ String "=" (value +:+ tail)))
  = Some value.
Proof.
  intros Hb Hn Heq Hv Hr Htail.
  set (field := name +:+ String "=" value).
  assert (free_of reserved field = true) as Hf.
  { unfold field. rewrite free_of_app. simpl. by rewrite Hn, Hr. }
  assert (base +:+ String "?" (name +:+ String "=" (value +:+ tail))
          = (base +:+ String "?" field) +:+ tail) as ->.
  { unfold field. by rewrite !append_assoc, !append_cons, !append_assoc. }
  unfold urlparse.parameter, urlparse.query.
  rewrite split1_free.
  2:{ rewrite free_of_app. simpl.
      rewrite (reserved_free "#" field) by done.
      rewrite (free_of_weaken delimiter _ base) by
        (done || (intros c ->%Ascii.eqb_eq; done)).
      done. }
  cbn [fst].
  assert ((urlparse.split1 "#" tail).1 = ""
          ∨ ∃ t, (urlparse.split1 "#" tail).1 = String "&" t) as Ht.
  { destruct Htail as [->|[t ->]]; [by left|]. right. simpl.
    destruct (urlparse.split1 "#" t). by eexists. }
  rewrite append_assoc, append_cons.
  rewrite split1_at by
    (apply (free_of_weaken delimiter); [intros c ->%Ascii.eqb_eq|]; done).
  unfold urlparse.parse_qsl.
  assert (∃ more, urlparse.fields (field +:+ (urlparse.split1 "#" tail).1)
                  = field :: more) as [more ->].
  { destruct Ht as [->|[t ->]].
    - rewrite append_empty_r. exists []. apply fields_free.
      by apply (free_of_weaken reserved);
        [intros c [->%Ascii.eqb_eq | ->%Ascii.eqb_eq]%orb_true_iff|].
    - eexists. apply fields_first; [|done].
      by apply (free_of_weaken reserved);
        [intros c [->%Ascii.eqb_eq | ->%Ascii.eqb_eq]%orb_true_iff|]. }
  simpl. unfold field at 1.
  rewrite field_pair_plain by done. simpl. by rewrite String.eqb_refl.
Qed.

Section RoundTrip.

Variable urlopen : string → result string.
Variable json_loads : string → result pyval.

Abbreviation time_series := (wtss.time_series urlopen json_loads).
Abbreviation describe_coverage := (wtss.describe_coverage urlopen json_loads).

Lemma series_url_query (self : wtss.t) (cv_name a : string)
    (latitude longitude : float) (dates : string) :
  ∃ t,
    series_url self cv_name a latitude longitude +:+ dates
    = (wtss.host self +:+ "/wtss/time_series")
      +:+ String "?" ("coverage" +:+ String "=" (cv_name +:+ String "&" t)).
Proof.
  exists ("attributes=" +:+ a +:+ "&latitude=" +:+ format_f latitude
          +:+ "&longitude=" +:+ format_f longitude +:+ dates).
  unfold series_url. rewrite !append_assoc. reflexivity.
Qed.

(** C8, as amended. The coverage name is written into the address as it
    is, without any escaping. For a client whose host contains neither [?]
    nor [#], and a coverage name that is not empty and contains none of
    [&], [;], [+], [%] and [#] (it may contain spaces): decoding the
    parameter [name] of the address [describe_coverage] requests, and the
    parameter [coverage] of any address [time_series] requests, gives back
    the coverage name. *)
Theorem coverage_name_round_trip (self : wtss.t) (cv_name : string) :
  free_of delimiter (wtss.host self) = true →
  cv_name ≠ "" → free_of reserved cv_name = true →
  (∀ w, ∃ url,
     (describe_coverage self cv_name w).2 = w ++ [url]
     ∧ urlparse.parameter "name" url = Some cv_name)
  ∧ (∀ attributes latitude longitude start_date end_date w r w',
       time_series self cv_name attributes latitude longitude
         start_date end_date w = (r, w') →
       w' = w
       ∨ ∃ url, w' = w ++ [url]
                ∧ urlparse.parameter "coverage" url = Some cv_name).
Proof.
  intros Hhost Hcv Hres. split.
  - intros w. eexists. split; [apply request_sent|].
    assert (wtss.host self +:+ "/wtss/describe_coverage?name=" +:+ cv_name
            = (wtss.host self +:+ "/wtss/describe_coverage")
              +:+ String "?" ("name" +:+ String "=" (cv_name +:+ ""))) as ->.
    { by rewrite append_empty_r, !append_assoc. }
    apply parameter_head; try done; [|by left].
    rewrite free_of_app. by rewrite Hhost.
  - intros attributes latitude longitude start_date end_date w r w' H.
    apply time_series_sent in H as [->|(a & dates & _ & ->)]; [by left|].
    right. eexists. split; [done|].
    destruct (series_url_query self cv_name a latitude longitude dates)
      as [t ->].
    apply parameter_head; try done; [|by right; eexists].
    rewrite free_of_app. by rewrite Hhost.
Qed.

End RoundTrip.

(** * The properties on concrete calls *)

(** ** Examples of the documentation *)

Example docstring_request :
  (wtss.time_series offline no_json inpe "mod13q1_512"
     (PList [PStr "red"; PStr "nir"]) (-12)%float (-54)%float
     (Some "") (Some "") []).2
  = ["http://www.dpi.inpe.br/tws/wtss/time_series?coverage=mod13q1_512&attributes=red,nir&latitude=-12.000000&longitude=-54.000000"].
Proof. reflexivity. Qed.

Example request_with_dates :
  (wtss.time_series offline no_json inpe "mod13q1_512" (PStr "red,nir")
     (-12.5)%float 54.25%float (Some "2020-01-01") (Some "2020-12-31") []).2
  = ["http://www.dpi.inpe.br/tws/wtss/time_series?coverage=mod13q1_512&attributes=red,nir&latitude=-12.500000&longitude=54.250000&start=2020-01-01&end=2020-12-31"].
Proof. reflexivity. Qed.

Example request_with_one_date :
  (wtss.time_series offline no_json inpe "cv" (PList [PStr "red"])
     0%float 0%float (Some "2020-01-01") None []).2
  = ["http://www.dpi.inpe.br/tws/wtss/time_series?coverage=cv&attributes=red&latitude=0.000000&longitude=0.000000"].
Proof. reflexivity. Qed.

Example latitude_above :
  wtss.time_series offline no_json inpe "cv" (PList [PStr "red"])
    90.1%float 0%float None None []
  = (inl (ValueError "latitude is out-of range!"), []).
Proof. reflexivity. Qed.

Example longitude_below :
  wtss.time_series offline no_json inpe "cv" (PList [PStr "red"])
    0%float (-180.1)%float None None []
  = (inl (ValueError "longitude is out-of range!"), []).
Proof. reflexivity. Qed.

(** A latitude that is not a number passes both comparisons. *)
Example latitude_nan :
  (wtss.time_series offline no_json inpe "cv" (PStr "red")
     nan 0%float None None []).2
  = ["http://www.dpi.inpe.br/tws/wtss/time_series?coverage=cv&attributes=red&latitude=nan&longitude=0.000000"].
Proof. reflexivity. Qed.

Example values_red :
  wtss.values sample_document "red" = inr (PList [PInt 1; PInt 2; PInt 3]).
Proof. reflexivity. Qed.

Example values_missing :
  wtss.values sample_document "evi"
  = inl (ValueError "Time series for attribute 'evi' not found!").
Proof. reflexivity. Qed.

Example timeline_two_dates :
  wtss.timeline strptime_iso sample_document "%Y-%m-%d"
  = inr [ {| year := 2020; month := 1; day := 1 |};
          {| year := 2020; month := 1; day := 17 |} ].
Proof. reflexivity. Qed.

Example answer_decoded :
  wtss.list_coverages (serving "{}") (json_document (PDict ∅)) inpe []
  = (inr (PDict ∅), ["http://www.dpi.inpe.br/tws/wtss/list_coverages"]).
Proof. reflexivity. Qed.

(** ** The theorems at concrete inputs *)

Lemma missing_arguments_witness :
  wtss.time_series offline no_json inpe "" (PList [PStr "red"])
    0%float 0%float None None []
  = (inl (ValueError "Missing coverage name."), [])
  ∧ wtss.time_series offline no_json inpe "cv" (PList [])
      0%float 0%float None None []
    = (inl (ValueError "Missing coverage attributes."), []).
Proof.
  split.
  - apply (proj1 (missing_arguments offline no_json inpe ""
                    (PList [PStr "red"]) 0%float 0%float None None [])).
    reflexivity.
  - apply (proj2 (missing_arguments offline no_json inpe "cv"
                    (PList []) 0%float 0%float None None [])).
    + discriminate.
    + left. reflexivity.
Defined.

Lemma attributes_parameter_witness :
  ∃ dates,
    (wtss.time_series offline no_json inpe "cv"
       (PList [PStr "a"; PStr "b"; PStr "c"])
       (-12)%float (-54)%float None None []).2
    = [] ++ [series_url inpe "cv" "a,b,c" (-12)%float (-54)%float +:+ dates].
Proof.
  apply (proj2 (attributes_parameter offline no_json inpe "cv"
                  (PList [PStr "a"; PStr "b"; PStr "c"]) "a,b,c"
                  (-12)%float (-54)%float None None []
                  (text_of_list ["a"; "b"; "c"]))).
  - discriminate.
  - intros [H | [H | H]]; discriminate H.
  - split; reflexivity.
  - split; reflexivity.
Defined.

Lemma optional_dates_witness :
  wtss.time_series offline no_json inpe "cv" (PStr "red,nir")
    90%float (-180)%float (Some "2020-01-01") (Some "2020-12-31") []
  = wtss._request offline no_json inpe
      (series_url inpe "cv" "red,nir" 90%float (-180)%float
       +:+ "&start=" +:+ "2020-01-01" +:+ "&end=" +:+ "2020-12-31") [].
Proof.
  refine (proj1 (optional_dates offline no_json inpe "cv" (PStr "red,nir")
                   "red,nir" 90%float (-180)%float
                   (Some "2020-01-01") (Some "2020-12-31") []
                   _ _ (text_of_str "red,nir") _ _)
            "2020-01-01" "2020-12-31" eq_refl eq_refl _ _).
  - discriminate.
  - intros [H | [H | H]]; discriminate H.
  - split; reflexivity.
  - split; reflexivity.
  - discriminate.
  - discriminate.
Defined.

Lemma range_checks_witness :
  wtss.time_series offline no_json inpe "cv" (PTuple [PStr "red"; PStr "nir"])
    0%float 180.5%float None None []
  = (inl (ValueError "longitude is out-of range!"), []).
Proof.
  refine (proj1 (proj2 (range_checks offline no_json inpe "cv"
                          (PTuple [PStr "red"; PStr "nir"]) "red,nir"
                          0%float 180.5%float None None []
                          _ _ (text_of_tuple ["red"; "nir"]))) _ _).
  - discriminate.
  - intros [H | [H | H]]; discriminate H.
  - split; reflexivity.
  - right. reflexivity.
Defined.

Lemma attributes_shape_witness :
  wtss.time_series offline no_json inpe "cv" (PInt 5)
    0%float 0%float None None []
  = (inl (ValueError "attributes must be a list, tuple or string"), []).
Proof.
  apply (attributes_shape offline no_json inpe "cv" (PInt 5)).
  - discriminate.
  - reflexivity.
  - simpl. rewrite !elem_of_cons, elem_of_nil.
    intros [H | [H | [H | H]]]; [discriminate H .. | exact H].
Defined.

Lemma sample_attributes :
  has_result sample_document "attributes"
    (PList [series "red" [1; 2; 3]%Z; series "nir" [4; 5; 6]%Z;
            series "red" [7; 8; 9]%Z]).
Proof.
  eexists _, _. split; [reflexivity|]. split; reflexivity.
Defined.

Lemma sample_timeline :
  has_result sample_document "timeline"
    (PList [PStr "2020-01-01"; PStr "2020-01-17"]).
Proof.
  eexists _, _. split; [reflexivity|]. split; reflexivity.
Defined.

Lemma series_record (name : string) (vals : list Z) :
  is_record (series name vals) (PStr name) (PList (PInt <$> vals)).
Proof. eexists. split; [reflexivity|]. split; reflexivity. Defined.

Lemma series_not_named (name other : string) (vals : list Z) :
  name ≠ other → ¬ named other (series name vals).
Proof.
  intros Hne (v & d & Hd & Hn & _). injection Hd as <-.
  vm_compute in Hn. congruence.
Defined.

Lemma values_first_match_witness :
  wtss.values sample_document "red" = inr (PList [PInt 1; PInt 2; PInt 3])
  ∧ wtss.values sample_document "nir" = inr (PList [PInt 4; PInt 5; PInt 6])
  ∧ wtss.values sample_document "evi" = inl (not_found "evi").
Proof.
  split; [|split].
  - refine (proj1 (values_first_match sample_document _ "red"
                     sample_attributes _)
              [] (series "red" [1; 2; 3]%Z)
              [series "nir" [4; 5; 6]%Z; series "red" [7; 8; 9]%Z]
              _ eq_refl _ (series_record _ _)).
    + repeat constructor; eexists _, _; apply series_record.
    + constructor.
  - refine (proj1 (values_first_match sample_document _ "nir"
                     sample_attributes _)
              [series "red" [1; 2; 3]%Z] (series "nir" [4; 5; 6]%Z)
              [series "red" [7; 8; 9]%Z] _ eq_refl _ (series_record _ _)).
    + repeat constructor; eexists _, _; apply series_record.
    + repeat constructor. by apply series_not_named.
  - refine (proj2 (values_first_match sample_document _ "evi"
                     sample_attributes _) _).
    + repeat constructor; eexists _, _; apply series_record.
    + repeat constructor; by apply series_not_named.
Defined.

Definition midnight (y m d : Z) : datetime :=
  {| dt_year := y; dt_month := m; dt_day := d;
     dt_hour := 0; dt_minute := 0; dt_second := 0; dt_microsecond := 0 |}.

Lemma timeline_parses_witness :
  (wtss.timeline strptime_iso sample_document "%Y-%m-%d"
   = inr (datetime_date <$> [midnight 2020 1 1; midnight 2020 1 17])
   ∧ length (datetime_date <$> [midnight 2020 1 1; midnight 2020 1 17])
     = length [PStr "2020-01-01"; PStr "2020-01-17"])
  ∧ ∃ pre t post e,
      [PStr "2020-01-01"; PStr "2020-01-17"] = pre ++ t :: post
      ∧ Forall (λ u, ∃ dt, strptime_iso u "%d/%m/%Y" = inr dt) pre
      ∧ strptime_iso t "%d/%m/%Y" = inl e
      ∧ wtss.timeline strptime_iso sample_document "%d/%m/%Y" = inl e.
Proof.
  split.
  - apply (proj1 (timeline_parses strptime_iso sample_document _ "%Y-%m-%d"
                    sample_timeline)).
    repeat constructor.
  - apply (proj2 (timeline_parses strptime_iso sample_document _ "%d/%m/%Y"
                    sample_timeline)).
    exists (PStr "2020-01-17"). eexists. split; [|reflexivity].
    rewrite !elem_of_cons. right. left. reflexivity.
Defined.

Lemma timeline_empty_witness :
  wtss.timeline strptime_iso (document [("timeline", PList [])]) "%Y-%m-%d"
  = inr [].
Proof.
  apply timeline_empty. left.
  eexists _, _. split; [reflexivity|]. split; reflexivity.
Defined.





Lemma coverage_name_round_trip_witness :
  ∃ url,
    (wtss.describe_coverage offline no_json inpe "my coverage" []).2
    = [] ++ [url]
    ∧ urlparse.parameter "name" url = Some "my coverage".
Proof.
  apply (proj1 (coverage_name_round_trip offline no_json inpe "my coverage"
                  eq_refl ltac:(discriminate) eq_refl)).
Defined.

(** ** Where the claims as written fail *)

(** C3 as written. A latitude of 91.0 is above 90.0, but the call fails
    on its empty coverage name, which is checked first; a longitude of
    -181.0 with a latitude in range, but the call fails on its empty
    attributes. *)
Lemma range_checks_come_last :
  PrimFloat.ltb 90%float 91%float = true
  ∧ wtss.time_series offline no_json inpe "" (PList [PStr "red"])
      91%float 0%float None None []
    = (inl (ValueError "Missing coverage name."), [])
  ∧ wtss.time_series offline no_json inpe "" (PList [PStr "red"])
      91%float 0%float None None []
    ≠ (inl (ValueError "latitude is out-of range!"), [])
  ∧ PrimFloat.ltb (-181)%float (-180)%float = true
  ∧ within (-90) 90 0%float
  ∧ wtss.time_series offline no_json inpe "cv" (PList [])
      0%float (-181)%float None None []
    = (inl (ValueError "Missing coverage attributes."), [])
  ∧ wtss.time_series offline no_json inpe "cv" (PList [])
      0%float (-181)%float None None []
    ≠ (inl (ValueError "longitude is out-of range!"), []).
Proof. repeat split; (reflexivity || discriminate). Qed.

(** C7 as written. A list with an item that is not a string is not
    rejected by the check of the shape: [join] raises a [TypeError]. And
    with an empty coverage name the call fails on the name, whatever the
    attributes. *)
Lemma attributes_items_not_checked :
  truthy (PList [PInt 1]) = true
  ∧ wtss.time_series offline no_json inpe "cv" (PList [PInt 1])
      0%float 0%float None None []
    = (inl (TypeError "sequence item 0: expected string, int found"), [])
  ∧ wtss.time_series offline no_json inpe "cv" (PList [PInt 1])
      0%float 0%float None None []
    ≠ (inl (ValueError "attributes must be a list, tuple or string"), [])
  ∧ truthy (PInt 5) = true
  ∧ wtss.time_series offline no_json inpe "" (PInt 5)
      0%float 0%float None None []
    = (inl (ValueError "Missing coverage name."), [])
  ∧ wtss.time_series offline no_json inpe "" (PInt 5)
      0%float 0%float None None []
    ≠ (inl (ValueError "attributes must be a list, tuple or string"), []).
Proof. repeat split; (reflexivity || discriminate). Qed.

(** C8 as written. The coverage name [a&b] is sent as it is; the decoder
    reads the parameter up to the [&] and gives back [a]. *)
Lemma ampersand_cuts_name :
  (wtss.describe_coverage offline no_json inpe "a&b" []).2
  = ["http://www.dpi.inpe.br/tws/wtss/describe_coverage?name=a&b"]
  ∧ urlparse.parameter "name"
      "http://www.dpi.inpe.br/tws/wtss/describe_coverage?name=a&b"
    = Some "a"
  ∧ (wtss.time_series offline no_json inpe "a&b" (PStr "red")
       0%float 0%float None None []).2
    = ["http://www.dpi.inpe.br/tws/wtss/time_series?coverage=a&b&attributes=red&latitude=0.000000&longitude=0.000000"]
  ∧ urlparse.parameter "coverage"
      "http://www.dpi.inpe.br/tws/wtss/time_series?coverage=a&b&attributes=red&latitude=0.000000&longitude=0.000000"
    = Some "a"
  ∧ Some "a" ≠ Some "a&b".
Proof. repeat split; (reflexivity || discriminate). Qed.

(** * Further properties of the methods *)

(** ** Vocabulary *)

(** An item of [result.attributes] the loop of [values] passes over when it
    looks for [attr_name]: a mapping whose [attribute] is another object. *)
Definition other_name (attr_name : string) (v : pyval) : Prop :=
  ∃ d a, v = PDict d ∧ d !! "attribute" = Some a ∧ a ≠ PStr attr_name.

(** The objects that are false and are not an empty sequence or string. *)
Definition falsy_objects : list pyval :=
  [ PNone; PBool false; PInt 0; PFloat 0%float; PFloat (-0)%float; PDict ∅ ].

(** What a call leaves behind: its result and the addresses it requested. *)
Definition outcome (m : io pyval) (r : result pyval) (sent : list string)
  : Prop :=
  ∀ w, m w = (r, w ++ sent).

(** ** Floats *)

Lemma Prim2SF_nan (x : float) :
  Prim2SF x = S754_nan ↔ PrimFloat.is_nan x = true.
Proof.
  unfold Prim2SF. destruct (PrimFloat.is_nan x); [done|].
  destruct (PrimFloat.is_zero x); [done|].
  destruct (PrimFloat.is_infinity x); [done|].
  destruct (Z.frexp x) as [r ex].
  destruct (shr_fexp _ _ _ _ _) as [shr e'].
  by destruct (shr_m shr).
Qed.

Lemma SFcompare_None (x y : spec_float) :
  SFcompare x y = None ↔ x = S754_nan ∨ y = S754_nan.
Proof.
  destruct x as [[]|[]| |[] ? ?], y as [[]|[]| |[] ? ?]; simpl;
    split; try done; try (intros [?|?]; done); auto.
Qed.

(** A comparison with a float that is not a number is false. *)
Lemma ltb_nan (x y : float) :
  PrimFloat.is_nan x = true ∨ PrimFloat.is_nan y = true →
  PrimFloat.ltb x y = false.
Proof.
  rewrite <- !Prim2SF_nan, ltb_spec. unfold SFltb.
  intros H%SFcompare_None. by rewrite H.
Qed.

(** [x < y] is false when [y <= x], and otherwise only for a float that is
    not a number. *)
Lemma not_ltb (x y : float) :
  PrimFloat.ltb x y = false →
  PrimFloat.leb y x = true
  ∨ PrimFloat.is_nan x = true ∨ PrimFloat.is_nan y = true.
Proof.
  rewrite <- !Prim2SF_nan, ltb_spec, leb_spec. unfold SFltb, SFleb.
  rewrite (SFcompare_swap (Prim2SF x) (Prim2SF y)).
  destruct (SFcompare (Prim2SF x) (Prim2SF y)) as [[]|] eqn:E; simpl;
    try done; auto.
  apply SFcompare_None in E. auto.
Qed.

Lemma not_outside_nan (lo hi x : float) :
  PrimFloat.is_nan x = true → not_outside lo hi x.
Proof. intros H. split; apply ltb_nan; auto. Qed.

Lemma not_outside_within (lo hi x : float) :
  PrimFloat.is_nan lo = false → PrimFloat.is_nan hi = false →
  not_outside lo hi x → within lo hi x ∨ PrimFloat.is_nan x = true.
Proof.
  intros Hlo Hhi [H1 H2].
  apply not_ltb in H1 as [H1|[H1|H1]]; [|by right|congruence].
  apply not_ltb in H2 as [H2|[H2|H2]]; [|congruence|by right].
  by left.
Qed.

Lemma format_f_nan (x : float) :
  PrimFloat.is_nan x = true → format_f x = "nan".
Proof. intros H%Prim2SF_nan. unfold format_f. by rewrite H. Qed.

(** ** Requests *)

Lemma first_non_str_none (i : nat) (l : list pyval) :
  first_non_str i l = None → l = PStr <$> str_items l.
Proof.
  revert i. induction l as [|v l IH]; intros i; [done|].
  destruct v; simpl; try done.
  intros H. csimpl. f_equal. by eapply IH.
Qed.


Lemma attributes_string_text (attributes : pyval) (a : string) :
  truthy attributes = true → attributes_string attributes = inr a →
  attributes_text attributes a ∧ ¬ empty_attributes attributes.
Proof.
  intros Ht Hs. split.
  - destruct attributes as [| | | |s|l|l|d]; simpl in Hs; try discriminate.
    + injection Hs as <-. constructor.
    + unfold str_join in Hs.
      destruct (first_non_str 0 l) as [[i v]|] eqn:E; [discriminate|].
      injection Hs as <-. rewrite (first_non_str_none _ _ E) at 1. constructor.
    + unfold str_join in Hs.
      destruct (first_non_str 0 l) as [[i v]|] eqn:E; [discriminate|].
      injection Hs as <-. rewrite (first_non_str_none _ _ E) at 1. constructor.
  - intros He. apply empty_attributes_falsy in He. congruence.
Qed.

Lemma snoc_not_same {A : Type} (w : list A) (x : A) : w ++ [x] ≠ w.
Proof.
  intros H. apply (f_equal length) in H. rewrite length_app in H.
  simpl in H. lia.
Qed.

Section Calls.

Variable urlopen : string → result string.
Variable json_loads : string → result pyval.

Abbreviation time_series := (wtss.time_series urlopen json_loads).
Abbreviation _request := (wtss._request urlopen json_loads).
Abbreviation list_coverages := (wtss.list_coverages urlopen json_loads).
Abbreviation describe_coverage := (wtss.describe_coverage urlopen json_loads).

(** What the server and the decoder make of an address. *)
Definition answered (uri : string) : result pyval :=
  doc ← urlopen uri; json_loads doc.

Lemma request_outcome (self : wtss.t) (uri : string) :
  outcome (_request self uri) (answered uri) [uri].
Proof.
  intros w. unfold wtss._request, answered, mbind, io_bind, result_bind, lift.
  by destruct (urlopen uri).
Qed.

(** A call that sent a request passed the five checks. *)
Lemma request_checks (self : wtss.t) (cv_name : string) (attributes : pyval)
    (latitude longitude : float) (start_date end_date : option string)
    (w : list string) :
  (time_series self cv_name attributes latitude longitude
     start_date end_date w).2 ≠ w →
  cv_name ≠ ""
  ∧ (∃ a, attributes_text attributes a) ∧ ¬ empty_attributes attributes
  ∧ not_outside (-90) 90 latitude ∧ not_outside (-180) 180 longitude.
Proof.
  intros H.
  destruct (decide (cv_name = "")) as [->|Hcv].
  { by rewrite empty_name_raises in H. }
  destruct (truthy attributes) eqn:Ht.
  2:{ by rewrite falsy_attributes_raise in H. }
  rewrite time_series_join in H by done.
  destruct (attributes_string attributes) as [e|a] eqn:Hs; [done|].
  apply attributes_string_text in Hs as [Ha He]; [|done].
  unfold after_join, not_outside in *.
  destruct (PrimFloat.ltb latitude (-90)), (PrimFloat.ltb 90 latitude);
    try done.
  destruct (PrimFloat.ltb longitude (-180)), (PrimFloat.ltb 180 longitude);
    try done.
  eauto 10.
Qed.

(** X1. A request is sent exactly when the five checks pass: the coverage
    name is not empty, the attributes are a string or a list or tuple of
    strings and are not empty, the latitude is neither below -90.0 nor
    above 90.0 and the longitude neither below -180.0 nor above 180.0. *)
Theorem request_iff_checks_pass (self : wtss.t) (cv_name : string)
    (attributes : pyval) (latitude longitude : float)
    (start_date end_date : option string) (w : list string) :
  (time_series self cv_name attributes latitude longitude
     start_date end_date w).2 ≠ w
  ↔ cv_name ≠ ""
    ∧ (∃ a, attributes_text attributes a) ∧ ¬ empty_attributes attributes
    ∧ not_outside (-90) 90 latitude ∧ not_outside (-180) 180 longitude.
Proof.
  split; [apply request_checks|].
  intros (Hcv & [a Ha] & He & [Hl1 Hl2] & [Hg1 Hg2]).
  rewrite (time_series_text _ _ _ _ _ _ _ _ _ _ _ Hcv He Ha).
  unfold after_join. rewrite Hl1, Hl2, Hg1, Hg2. cbn [orb].
  rewrite request_sent. apply snoc_not_same.
Qed.

(** X2. The coordinates of a request that is sent are within the ranges,
    unless they are not numbers: a latitude outside [-90.0, 90.0] or a
    longitude outside [-180.0, 180.0] is never sent. *)
Theorem sent_coordinates_in_range (self : wtss.t) (cv_name : string)
    (attributes : pyval) (latitude longitude : float)
    (start_date end_date : option string) (w : list string) :
  (time_series self cv_name attributes latitude longitude
     start_date end_date w).2 ≠ w →
  (within (-90) 90 latitude ∨ PrimFloat.is_nan latitude = true)
  ∧ (within (-180) 180 longitude ∨ PrimFloat.is_nan longitude = true).
Proof.
  intros (_ & _ & _ & Hl & Hg)%request_checks.
  split; by apply not_outside_within.
Qed.

(** X3. A latitude that is not a number passes the range check: with a
    coverage name and attributes that pass and a longitude that is not out
    of range, the request is sent, with [latitude=nan] in the address. *)
Theorem nan_latitude_passes (self : wtss.t) (cv_name : string)
    (attributes : pyval) (a : string) (latitude longitude : float)
    (start_date end_date : option string) (w : list string) :
  cv_name ≠ "" → ¬ empty_attributes attributes →
  attributes_text attributes a →
  PrimFloat.is_nan latitude = true →
  not_outside (-180) 180 longitude →
  ∃ dates,
    (time_series self cv_name attributes latitude longitude
       start_date end_date w).2
    = w ++ [wtss.host self +:+ "/wtss/time_series?coverage=" +:+ cv_name
            +:+ "&attributes=" +:+ a +:+ "&latitude=nan&longitude="
            +:+ format_f longitude +:+ dates].
Proof.
  intros Hcv He Ha Hnan [Hg1 Hg2].
  destruct (not_outside_nan (-90) 90 latitude Hnan) as [Hl1 Hl2].
  rewrite (time_series_text _ _ _ _ _ _ _ _ _ _ _ Hcv He Ha).
  unfold after_join. rewrite Hl1, Hl2, Hg1, Hg2. cbn [orb].
  destruct (dates_suffix (series_url self cv_name a latitude longitude)
              start_date end_date) as [dates ->].
  exists dates. rewrite request_sent. do 2 f_equal.
  unfold series_url. rewrite (format_f_nan _ Hnan).
  rewrite !append_assoc. reflexivity.
Qed.

Lemma silent_outcome (m : io pyval) (e : exn) :
  (∀ w, m w = (inl e, w)) → outcome m (inl e) [].
Proof. intros H w. by rewrite app_nil_r. Qed.

(** X4. No method retries or contacts another address: [list_coverages]
    and [describe_coverage] send exactly one request, whatever the name
    ([describe_coverage] checks nothing, an empty name is sent too), and
    [time_series] sends one request or none. A call that sends nothing
    raises; a call that sends a request returns what the transport and then
    the decoder give for that address, their exceptions included. *)
Theorem one_request_per_call (self : wtss.t) :
  outcome (list_coverages self)
    (answered (wtss.host self +:+ "/wtss/list_coverages"))
    [wtss.host self +:+ "/wtss/list_coverages"]
  ∧ (∀ cv_name,
       outcome (describe_coverage self cv_name)
         (answered (wtss.host self +:+ "/wtss/describe_coverage?name="
                    +:+ cv_name))
         [wtss.host self +:+ "/wtss/describe_coverage?name=" +:+ cv_name])
  ∧ (∀ cv_name attributes latitude longitude start_date end_date,
       (∃ e, outcome (time_series self cv_name attributes latitude longitude
                        start_date end_date) (inl e) [])
       ∨ (∃ a dates,
            outcome (time_series self cv_name attributes latitude longitude
                       start_date end_date)
              (answered (series_url self cv_name a latitude longitude
                         +:+ dates))
              [series_url self cv_name a latitude longitude +:+ dates])).
Proof.
  split; [apply request_outcome|]. split; [intros cv; apply request_outcome|].
  intros cv_name attributes latitude longitude start_date end_date.
  destruct (decide (cv_name = "")) as [->|Hcv].
  { left. eexists. apply silent_outcome. intros w. apply empty_name_raises. }
  destruct (truthy attributes) eqn:Ht.
  2:{ left. eexists. apply silent_outcome. intros w.
      by apply falsy_attributes_raise. }
  destruct (attributes_string attributes) as [e|a] eqn:Hs.
  { left. exists e. apply silent_outcome. intros w.
    rewrite time_series_join by done. by rewrite Hs. }
  destruct (PrimFloat.ltb latitude (-90) || PrimFloat.ltb 90 latitude) eqn:Hl.
  { left. eexists. apply silent_outcome. intros w.
    rewrite time_series_join by done. rewrite Hs. unfold after_join.
    by rewrite Hl. }
  destruct (PrimFloat.ltb longitude (-180) || PrimFloat.ltb 180 longitude)
    eqn:Hg.
  { left. eexists. apply silent_outcome. intros w.
    rewrite time_series_join by done. rewrite Hs. unfold after_join.
    by rewrite Hl, Hg. }
  right. destruct (dates_suffix (series_url self cv_name a latitude longitude)
                     start_date end_date) as [dates Hd].
  exists a, dates. intros w.
  rewrite time_series_join by done. rewrite Hs. unfold after_join.
  rewrite Hl, Hg, Hd. apply request_outcome.
Qed.

(** X5. A list and a tuple with the same items are the same argument, and
    a sequence of strings is the same argument as the string of its items
    joined by commas, when that string is not empty. *)
Theorem sequence_or_joined_string (self : wtss.t) (cv_name : string)
    (latitude longitude : float) (start_date end_date : option string)
    (w : list string) :
  (∀ l : list pyval,
     time_series self cv_name (PList l) latitude longitude
       start_date end_date w
     = time_series self cv_name (PTuple l) latitude longitude
         start_date end_date w)
  ∧ (∀ l : list string, concat_sep "," l ≠ "" →
       time_series self cv_name (PList (PStr <$> l)) latitude longitude
         start_date end_date w
       = time_series self cv_name (PStr (concat_sep "," l)) latitude longitude
           start_date end_date w).
Proof.
  split; [done|]. intros l Hl.
  destruct (decide (cv_name = "")) as [->|Hcv].
  { by rewrite !empty_name_raises. }
  rewrite (time_series_text _ _ _ _ _ (concat_sep "," l)); try done.
  - rewrite (time_series_text _ _ _ _ (PStr _) (concat_sep "," l)); try done.
    + intros [?|[?|[= ?]]]; done.
    + constructor.
  - intros [H|[?|?]]; try done. destruct l; [done|discriminate].
  - constructor.
Qed.

(** X6. An object that is false, whatever its type ([None], [False], a
    zero, an empty mapping), is reported as missing attributes, not as
    attributes of a wrong type. *)
Theorem falsy_attributes_missing (self : wtss.t) (cv_name : string)
    (attributes : pyval) (latitude longitude : float)
    (start_date end_date : option string) (w : list string) :
  cv_name ≠ "" → attributes ∈ falsy_objects →
  time_series self cv_name attributes latitude longitude start_date end_date w
  = (inl (ValueError "Missing coverage attributes."), w).
Proof.
  intros Hcv Hin. apply falsy_attributes_raise; [done|].
  unfold falsy_objects in Hin. rewrite !elem_of_cons, elem_of_nil in Hin.
  by destruct Hin as [->|[->|[->|[->|[->|[->|[]]]]]]].
Qed.


(** X8. The dates are sent only when both are given: with no date, one
    date, or an empty string for either, a call that passes the checks
    requests the address without dates. *)
Theorem dates_need_both (self : wtss.t) (cv_name : string)
    (attributes : pyval) (a : string) (latitude longitude : float)
    (start_date end_date : option string) (w : list string) :
  cv_name ≠ "" → ¬ empty_attributes attributes →
  attributes_text attributes a →
  not_outside (-90) 90 latitude → not_outside (-180) 180 longitude →
  ¬ (supplied start_date ∧ supplied end_date) →
  time_series self cv_name attributes latitude longitude start_date end_date w
  = _request self (series_url self cv_name a latitude longitude) w.
Proof.
  intros Hcv He Ha [Hl1 Hl2] [Hg1 Hg2] Hno.
  rewrite (time_series_text _ _ _ _ _ _ _ _ _ _ _ Hcv He Ha).
  unfold after_join. rewrite Hl1, Hl2, Hg1, Hg2. cbn [orb].
  destruct start_date as [[|c s]|], end_date as [[|c' e]|]; try done.
  exfalso. apply Hno. split; by eexists.
Qed.

End Calls.

(** X9. The checks do not depend on the server: a call that fails without
    sending a request fails in the same way for every client, transport
    and decoder. *)
Theorem checks_ignore_environment
    (urlopen urlopen' : string → result string)
    (json_loads json_loads' : string → result pyval)
    (self self' : wtss.t) (cv_name : string) (attributes : pyval)
    (latitude longitude : float) (start_date end_date : option string)
    (w w' : list string) (r : result pyval) :
  wtss.time_series urlopen json_loads self cv_name attributes
    latitude longitude start_date end_date w = (r, w) →
  wtss.time_series urlopen' json_loads' self' cv_name attributes
    latitude longitude start_date end_date w' = (r, w').
Proof.
  intros H.
  destruct (decide (cv_name = "")) as [->|Hcv].
  { rewrite empty_name_raises in H. rewrite empty_name_raises.
    by injection H as <-. }
  destruct (truthy attributes) eqn:Ht.
  2:{ rewrite falsy_attributes_raise in H by done.
      rewrite falsy_attributes_raise by done. by injection H as <-. }
  rewrite time_series_join in H by done. rewrite time_series_join by done.
  destruct (attributes_string attributes) as [e|a]; [by injection H as <-|].
  unfold after_join, raise in *.
  destruct (_ || _); [by injection H as <-|].
  destruct (_ || _); [by injection H as <-|].
  by apply request_not_silent in H.
Qed.

(** ** Documents *)

Lemma getitem_inr (v : pyval) (k : string) (x : pyval) :
  getitem v k = inr x ↔ ∃ d, v = PDict d ∧ d !! k = Some x.
Proof.
  split.
  - destruct v as [| | | | | | |d]; simpl; try done.
    destruct (d !! k) eqn:E; [|done]. intros [= <-]. eauto.
  - intros (d & -> & Hd). simpl. by rewrite Hd.
Qed.

Lemma values_loop_other (attr_name : string) (v : pyval) (rest : list pyval) :
  other_name attr_name v →
  wtss.values_loop (v :: rest) attr_name = wtss.values_loop rest attr_name.
Proof.
  intros (d & a & -> & Ha & Hne). simpl. rewrite Ha. simpl.
  destruct (eq_str a attr_name) eqn:E; [|done].
  by apply eq_str_true in E.
Qed.

Lemma values_loop_others (attr_name : string) (pre rest : list pyval) :
  Forall (other_name attr_name) pre →
  wtss.values_loop (pre ++ rest) attr_name = wtss.values_loop rest attr_name.
Proof.
  induction 1 as [|v pre Hv _ IH]; [done|].
  by rewrite <- app_comm_cons, values_loop_other.
Qed.

(** What the loop does with its first item. *)
Lemma values_loop_head (attr_name : string) (v : pyval) (rest : list pyval)
    (r : result pyval) :
  wtss.values_loop (v :: rest) attr_name = r →
  (∃ e, getitem v "attribute" = inl e ∧ r = inl e)
  ∨ (∃ d, v = PDict d ∧ d !! "attribute" = Some (PStr attr_name)
          ∧ r = getitem v "values")
  ∨ (other_name attr_name v ∧ r = wtss.values_loop rest attr_name).
Proof.
  simpl. destruct (getitem v "attribute") as [e|a] eqn:Ha; simpl.
  { intros <-. left. eauto. }
  apply getitem_inr in Ha as (d & -> & Ha).
  destruct (eq_str a attr_name) eqn:E; intros <-.
  - apply eq_str_true in E as ->. right. left. eauto.
  - right. right. split; [|done]. exists d, a. split; [done|]. split; [done|].
    intros ->. simpl in E. by rewrite String.eqb_refl in E.
Qed.

Lemma values_loop_found (attr_name : string) (l : list pyval) (vals : pyval) :
  wtss.values_loop l attr_name = inr vals →
  ∃ pre v post,
    l = pre ++ v :: post ∧ Forall (other_name attr_name) pre
    ∧ is_record v (PStr attr_name) vals.
Proof.
  induction l as [|v l IH]; [done|].
  intros [(e & _ & [=]) | [(d & -> & Hn & Hv) | [Ho Hr]]]%values_loop_head.
  - symmetry in Hv. apply getitem_inr in Hv as (d' & [= <-] & Hv).
    exists [], (PDict d), l. split; [done|]. split; [constructor|].
    by exists d.
  - symmetry in Hr. destruct (IH Hr) as (pre & u & post & -> & Hpre & Hu).
    exists (v :: pre), u, post. split; [done|]. split; [|done].
    by constructor.
Qed.

Lemma values_loop_missed (attr_name : string) (l : list pyval) :
  wtss.values_loop l attr_name = inl (not_found attr_name) →
  Forall (other_name attr_name) l.
Proof.
  induction l as [|v l IH]; [constructor|].
  intros [(e & He & [= <-]) | [(d & -> & Hn & Hv) | [Ho Hr]]]%values_loop_head.
  - by apply getitem_error in He.
  - symmetry in Hv. by apply getitem_error in Hv.
  - constructor; [done|]. by apply IH.
Qed.

(** X10. For a document whose [result.attributes] is a list, [values]
    returns an object exactly when the list has a record of that name
    after items that are all mappings with another [attribute]; the object
    is the [values] of that record. What follows the record is not looked
    at. *)
Theorem values_found_iff (doc : pyval) (attrs : list pyval)
    (attr_name : string) (vals : pyval) :
  has_result doc "attributes" (PList attrs) →
  wtss.values doc attr_name = inr vals
  ↔ ∃ pre v post,
      attrs = pre ++ v :: post ∧ Forall (other_name attr_name) pre
      ∧ is_record v (PStr attr_name) vals.
Proof.
  intros Hdoc. rewrite (values_result _ _ _ Hdoc). split.
  - apply values_loop_found.
  - intros (pre & v & post & -> & Hpre & Hv).
    rewrite values_loop_others by done. by apply values_loop_hit.
Qed.

(** X11. For a document whose [result.attributes] is a list, [values]
    fails with its own message, the name not found, exactly when every
    item of the list is a mapping with another [attribute]. *)
Theorem values_not_found_iff (doc : pyval) (attrs : list pyval)
    (attr_name : string) :
  has_result doc "attributes" (PList attrs) →
  wtss.values doc attr_name = inl (not_found attr_name)
  ↔ Forall (other_name attr_name) attrs.
Proof.
  intros Hdoc. rewrite (values_result _ _ _ Hdoc). split.
  - apply values_loop_missed.
  - intros H. rewrite <- (app_nil_r attrs). by rewrite values_loop_others.
Qed.

(** X12. A mapping without [attribute] that comes before any record of
    the name ends the search with [KeyError('attribute')], even when a
    record of the name follows; and the first record of the name, when it
    has no [values], ends it with [KeyError('values')]. *)
Theorem values_malformed_record (doc : pyval) (pre post : list pyval)
    (d : gmap string pyval) (attr_name : string) :
  has_result doc "attributes" (PList (pre ++ PDict d :: post)) →
  Forall (other_name attr_name) pre →
  (d !! "attribute" = None →
   wtss.values doc attr_name = inl (KeyError "attribute"))
  ∧ (d !! "attribute" = Some (PStr attr_name) → d !! "values" = None →
     wtss.values doc attr_name = inl (KeyError "values")).
Proof.
  intros Hdoc Hpre. rewrite (values_result _ _ _ Hdoc).
  rewrite values_loop_others by done. simpl. split.
  - by intros ->.
  - intros -> ->. simpl. by rewrite String.eqb_refl.
Qed.

Section Schema.

Variable strptime : pyval → string → result datetime.

Abbreviation timeline := (wtss.timeline strptime).

(** X13. A document that is a mapping without [result] makes [values] and
    [timeline] raise [KeyError('result')]; a [result] that is a mapping
    without [attributes] makes [values] raise [KeyError('attributes')],
    and without [timeline] makes [timeline] raise [KeyError('timeline')]. *)
Theorem missing_keys (d : gmap string pyval) (attr_name fmt : string) :
  (d !! "result" = None →
   wtss.values (PDict d) attr_name = inl (KeyError "result")
   ∧ timeline (PDict d) fmt = inl (KeyError "result"))
  ∧ (∀ r : gmap string pyval, d !! "result" = Some (PDict r) →
       (r !! "attributes" = None →
        wtss.values (PDict d) attr_name = inl (KeyError "attributes"))
       ∧ (r !! "timeline" = None →
          timeline (PDict d) fmt = inl (KeyError "timeline"))).
Proof.
  unfold wtss.values, wtss.timeline. simpl. split.
  - by intros ->.
  - intros r ->. simpl. split; by intros ->.
Qed.

Lemma comprehension_inr {A B : Type} (f : A → result B) (l : list A)
    (l' : list B) :
  comprehension f l = inr l' ↔ Forall2 (λ x y, f x = inr y) l l'.
Proof.
  split; [|apply comprehension_all].
  revert l'. induction l as [|x l IH]; intros l'; simpl.
  - intros [= <-]. constructor.
  - destruct (f x) as [e|y] eqn:Hx; simpl; [done|].
    destruct (comprehension f l) as [e|ys]; simpl; [done|].
    intros [= <-]. constructor; [done|]. by apply IH.
Qed.

(** X14. For a document whose [result.timeline] is a list, [timeline]
    returns a list of dates exactly when [strptime] parses every entry
    with [fmt]; the dates are then the dates of the parsed entries, one
    for each entry and in their order. *)
Theorem timeline_returns_iff (doc : pyval) (ts : list pyval) (fmt : string)
    (ds : list date) :
  has_result doc "timeline" (PList ts) →
  timeline doc fmt = inr ds
  ↔ Forall2 (λ t d, ∃ dt, strptime t fmt = inr dt ∧ d = datetime_date dt)
      ts ds.
Proof.
  intros Hdoc. rewrite (timeline_result strptime doc ts fmt) by auto.
  rewrite comprehension_inr.
  split; intros H; (eapply Forall2_impl; [exact H|]); intros t d; simpl;
    destruct (strptime t fmt) as [e|dt]; simpl.
  - done.
  - intros [= <-]. eauto.
  - by intros (dt & [=] & _).
  - by intros (dt' & [= <-] & ->).
Qed.

End Schema.

(** ** The coordinates in the address *)

Definition is_digit (c : ascii) : bool :=
  let n := N_of_ascii c in (48 <=? n)%N && (n <=? 57)%N.

Fixpoint all_digits (s : string) : bool :=
  match s with
  | EmptyString => true
  | String c rest => is_digit c && all_digits rest
  end.

(** Fixed notation with six decimals: a sign or none, digits, a point and
    six digits; no exponent. *)
Definition fixed_notation (s : string) : Prop :=
  ∃ neg whole frac,
    s = sign_prefix neg +:+ whole +:+ "." +:+ frac
    ∧ whole ≠ "" ∧ all_digits whole = true
    ∧ all_digits frac = true ∧ String.length frac = 6.

Lemma all_digits_app (a b : string) :
  all_digits (a +:+ b) = all_digits a && all_digits b.
Proof.
  induction a as [|c a IH]; [done|].
  rewrite append_cons. simpl. by rewrite IH, andb_assoc.
Qed.

Lemma length_append (a b : string) :
  String.length (a +:+ b) = String.length a + String.length b.
Proof.
  induction a as [|c a IH]; [done|]. rewrite append_cons. simpl. by rewrite IH.
Qed.

Lemma digit_char_digit (d : Z) :
  (0 <= d < 10)%Z → is_digit (digit_char d) = true.
Proof.
  intros Hd. unfold digit_char.
  assert (Z.to_nat d < 10) as Hk by lia.
  destruct (Z.to_nat d) as [|k]; [done|].
  do 9 (destruct k as [|k]; [done|]). lia.
Qed.

Lemma digits_fixed_digits (w : nat) (n : Z) :
  all_digits (digits_fixed w n) = true
  ∧ String.length (digits_fixed w n) = w.
Proof.
  revert n. induction w as [|w IH]; intros n; [done|].
  change (digits_fixed (S w) n)
    with (digits_fixed w (n / 10) +:+ String (digit_char (n mod 10)) "").
  destruct (IH (n / 10)%Z) as [Hd Hl].
  rewrite all_digits_app, length_append, Hd, Hl.
  change (all_digits (String (digit_char (n mod 10)) ""))
    with (is_digit (digit_char (n mod 10)) && true).
  rewrite digit_char_digit by (apply Z.mod_pos_bound; lia).
  change (String.length (String (digit_char (n mod 10)) "")) with 1.
  split; [reflexivity | lia].
Qed.

Lemma dec_of_N_digits (n : N) :
  dec_of_N n ≠ "" ∧ all_digits (dec_of_N n) = true.
Proof.
  unfold dec_of_N.
  assert (∀ d, all_digits (NilEmpty.string_of_uint d) = true) as Hall.
  { induction d; simpl; by rewrite ?IHd. }
  destruct (N.to_uint n) as [|d|d|d|d|d|d|d|d|d|d] eqn:E;
    (split; [done|]); try done;
    match goal with |- all_digits (NilZero.string_of_uint ?u) = _ =>
      change (NilZero.string_of_uint u) with (NilEmpty.string_of_uint u)
    end; apply Hall.
Qed.

Lemma fixed6_notation (neg : bool) (m : positive) (e : Z) :
  fixed_notation (fixed6 neg m e).
Proof.
  unfold fixed6. eexists neg, _, _. split; [reflexivity|].
  destruct (dec_of_N_digits (Z.to_N
    ((if (0 <=? e)%Z then (Z.pos m * 2 ^ e * 10 ^ 6)%Z
      else round_half_even (Z.pos m * 10 ^ 6) (2 ^ (- e))) / 10 ^ 6)))
    as [H1 H2].
  destruct (digits_fixed_digits 6
    ((if (0 <=? e)%Z then (Z.pos m * 2 ^ e * 10 ^ 6)%Z
      else round_half_even (Z.pos m * 10 ^ 6) (2 ^ (- e))) mod 10 ^ 6))
    as [H3 H4].
  repeat split; assumption.
Qed.

(** Between a negative and a positive bound of small exponent, [%f] gives
    the fixed notation. *)
Lemma format_f_bounded (lo hi x : float) (ml mh : positive) (el eh : Z) :
  Prim2SF lo = S754_finite true ml el →
  Prim2SF hi = S754_finite false mh eh →
  (el < 114)%Z → (eh < 114)%Z →
  within lo hi x → fixed_notation (format_f x).
Proof.
  intros Hlo Hhi Hel Heh [H1 H2].
  rewrite leb_spec, Hlo in H1. rewrite leb_spec, Hhi in H2.
  unfold format_f.
  destruct (Prim2SF x) as [s|s| |s m e] eqn:E.
  - exists s, "0", "000000". done.
  - by destruct s.
  - done.
  - rewrite leb_spec, abs_spec, E.
    change (Prim2SF 1e50) with (S754_finite false 4814824860968090 114).
    assert ((e < 114)%Z) as He.
    { unfold SFleb, SFcompare in H1, H2. destruct s.
      - destruct (Z.compare_spec el e); try done; lia.
      - destruct (Z.compare_spec e eh); try done; lia. }
    unfold SFleb, SFabs, SFcompare.
    destruct (Z.compare_spec 114 e); try lia.
    apply fixed6_notation.
Qed.

(** The text of the dates at the end of the address: both dates when both
    are given, nothing otherwise. *)
Definition dates_text (start_date end_date : option string) : string :=
  match start_date, end_date with
  | Some s, Some e =>
      if str_truthy s && str_truthy e
      then "&start=" +:+ s +:+ "&end=" +:+ e
      else ""
  | _, _ => ""
  end.

Section Coordinates.

Variable urlopen : string → result string.
Variable json_loads : string → result pyval.

Abbreviation time_series := (wtss.time_series urlopen json_loads).

(** X15. The coordinates sent are written in fixed notation with six
    decimals, never with an exponent. For a call that passes the checks
    with a latitude within [-90.0, 90.0] and a longitude within
    [-180.0, 180.0], the address sent is
    [<host>/wtss/time_series?coverage=<cv_name>&attributes=<a>&latitude=<lat>&longitude=<lon>]
    followed by the text of the dates and nothing else, where [<lat>] and
    [<lon>], the texts [%f] gives for the two coordinates, are each a sign
    or none, digits, a point and six digits. *)
Theorem coordinates_in_fixed_notation (self : wtss.t) (cv_name : string)
    (attributes : pyval) (a : string) (latitude longitude : float)
    (start_date end_date : option string) (w : list string) :
  cv_name ≠ "" → ¬ empty_attributes attributes →
  attributes_text attributes a →
  within (-90) 90 latitude → within (-180) 180 longitude →
  fixed_notation (format_f latitude) ∧ fixed_notation (format_f longitude)
  ∧ (time_series self cv_name attributes latitude longitude
       start_date end_date w).2
    = w ++ [wtss.host self +:+ "/wtss/time_series?coverage=" +:+ cv_name
            +:+ "&attributes=" +:+ a
            +:+ "&latitude=" +:+ format_f latitude
            +:+ "&longitude=" +:+ format_f longitude
            +:+ dates_text start_date end_date].
Proof.
  intros Hcv He Ha Hl Hg.
  destruct (within_not_outside _ _ _ Hl) as [Hl1 Hl2].
  destruct (within_not_outside _ _ _ Hg) as [Hg1 Hg2].
  split; [by eapply (format_f_bounded (-90) 90)|].
  split; [by eapply (format_f_bounded (-180) 180)|].
  rewrite (time_series_text _ _ _ _ _ _ _ _ _ _ _ Hcv He Ha).
  unfold after_join. rewrite Hl1, Hl2, Hg1, Hg2. cbn [orb].
  rewrite request_sent. do 2 f_equal.
  unfold series_url, dates_text.
  destruct start_date as [s|], end_date as [e|];
    try destruct (str_truthy s && str_truthy e);
    rewrite ?append_empty_r, ?append_assoc; reflexivity.
Qed.

End Coordinates.

(** ** What the server reads *)

(** The field [name=value] of a query string. *)
Definition field (kv : string * string) : string :=
  kv.1 +:+ String "=" kv.2.

(** The query string of a list of parameters, as the methods write it:
    the fields separated by [&], nothing escaped. *)
Definition query_of (kvs : list (string * string)) : string :=
  concat_sep "&" (field <$> kvs).

(** A parameter the decoder reads as it is written: no reserved character
    in its name or value, no [=] in its name, a value that is not empty. *)
Definition plain (kv : string * string) : Prop :=
  free_of reserved kv.1 = true
  ∧ free_of (λ c, Ascii.eqb c "=") kv.1 = true
  ∧ kv.2 ≠ "" ∧ free_of reserved kv.2 = true.

(** The parameters of the dates, when both are given. *)
Definition dates_parameters (start_date end_date : option string)
  : list (string * string) :=
  match start_date, end_date with
  | Some s, Some e =>
      if str_truthy s && str_truthy e then [("start", s); ("end", e)] else []
  | _, _ => []
  end.

Lemma split1_none (c : ascii) (s : string) :
  free_of (λ x, Ascii.eqb x c) s = true → urlparse.split1 c s = (s, None).
Proof.
  intros H. rewrite <- (append_empty_r s) at 1.
  rewrite split1_free by done. simpl. by rewrite append_empty_r.
Qed.

Lemma plain_field (kv : string * string) :
  plain kv → free_of reserved (field kv) = true.
Proof.
  intros (Hk & _ & _ & Hv). unfold field. rewrite free_of_app. simpl.
  by rewrite Hk, Hv.
Qed.

Lemma separator_reserved (c : ascii) :
  urlparse.is_separator c = true → reserved c = true.
Proof.
  by intros [->%Ascii.eqb_eq | ->%Ascii.eqb_eq]%orb_true_iff.
Qed.

Lemma query_of_cons (kv kv' : string * string) (rest : list (string * string)) :
  query_of (kv :: kv' :: rest)
  = field kv +:+ String "&" (query_of (kv' :: rest)).
Proof. done. Qed.

Lemma query_of_no_fragment (kvs : list (string * string)) :
  Forall plain kvs → free_of (λ x, Ascii.eqb x "#") (query_of kvs) = true.
Proof.
  induction 1 as [|kv rest Hkv Hrest IH]; [done|].
  destruct rest as [|kv' rest].
  - by apply reserved_free, plain_field.
  - rewrite query_of_cons, free_of_app. simpl. rewrite IH.
    by rewrite (reserved_free "#" (field kv)) by (done || by apply plain_field).
Qed.

Lemma omap_cons_some {A B : Type} (f : A → option B) (x : A) (y : B)
    (l : list A) :
  f x = Some y → omap f (x :: l) = y :: omap f l.
Proof. intros H. simpl. by rewrite H. Qed.

(** The decoder gives back the parameters that were written, when they
    are plain. *)
Lemma parse_qsl_query_of (kvs : list (string * string)) :
  Forall plain kvs → urlparse.parse_qsl (query_of kvs) = kvs.
Proof.
  unfold urlparse.parse_qsl.
  induction 1 as [|kv rest Hkv Hrest IH]; [done|].
  assert (urlparse.field_pair (field kv) = Some kv) as Hpair.
  { destruct kv as [k v]. destruct Hkv as (? & ? & ? & ?).
    by apply field_pair_plain. }
  assert (free_of urlparse.is_separator (field kv) = true) as Hsep.
  { eapply free_of_weaken; [apply separator_reserved|by apply plain_field]. }
  destruct rest as [|kv' rest].
  - change (query_of [kv]) with (field kv).
    rewrite fields_free by done. by rewrite (omap_cons_some _ _ kv).
  - rewrite query_of_cons, fields_first by done.
    rewrite (omap_cons_some _ _ kv) by done. by rewrite IH.
Qed.

Lemma query_decoded (base : string) (kvs : list (string * string)) :
  free_of delimiter base = true → Forall plain kvs →
  urlparse.parse_qsl (urlparse.query (base +:+ String "?" (query_of kvs)))
  = kvs.
Proof.
  intros Hb Hkvs. unfold urlparse.query.
  rewrite (split1_none "#").
  2:{ rewrite free_of_app. simpl. rewrite query_of_no_fragment by done.
      rewrite (free_of_weaken delimiter _ base) by
        (done || (intros c ->%Ascii.eqb_eq; done)).
      done. }
  cbn [fst]. rewrite split1_at by
    (apply (free_of_weaken delimiter); [intros c ->%Ascii.eqb_eq|]; done).
  by apply parse_qsl_query_of.
Qed.

Lemma digit_not_reserved (c : ascii) : is_digit c = true → reserved c = false.
Proof. by destruct c as [[] [] [] [] [] [] [] []]. Qed.

Lemma all_digits_plain (s : string) :
  all_digits s = true → free_of reserved s = true.
Proof.
  induction s as [|c s IH]; [done|]. simpl.
  intros [Hc Hs]%andb_true_iff. by rewrite (digit_not_reserved _ Hc), IH.
Qed.

Lemma fixed_notation_plain (s : string) :
  fixed_notation s → s ≠ "" ∧ free_of reserved s = true.
Proof.
  intros (neg & whole & frac & -> & Hne & Hw & Hf & _). split.
  - destruct neg, whole; done.
  - rewrite !free_of_app, (all_digits_plain _ Hw), (all_digits_plain _ Hf).
    by destruct neg.
Qed.

Lemma text_not_empty (attributes : pyval) (a : string) :
  attributes_text attributes a → a ≠ "" → ¬ empty_attributes attributes.
Proof.
  intros Ha Hne He. apply empty_attributes_falsy in He.
  destruct Ha as [[|s l]|[|s l]|[|c s]]; done.
Qed.

Section Server.

Variable urlopen : string → result string.
Variable json_loads : string → result pyval.

Abbreviation time_series := (wtss.time_series urlopen json_loads).

(** X16. The server reads what the caller passed when nothing needs
    escaping. For a host without [?] and [#], a coverage name and an
    attributes text that are not empty and have none of [&], [;], [+], [%]
    and [#], coordinates within the ranges and dates that, when both are
    given, have none of these characters either: the call sends one
    address, and decoding its query gives exactly the parameters
    [coverage], [attributes], [latitude], [longitude], then [start] and
    [end] when both dates are given, with the values passed. *)
Theorem request_decoded (self : wtss.t) (cv_name : string)
    (attributes : pyval) (a : string) (latitude longitude : float)
    (start_date end_date : option string) (w : list string) :
  free_of delimiter (wtss.host self) = true →
  cv_name ≠ "" → free_of reserved cv_name = true →
  attributes_text attributes a → a ≠ "" → free_of reserved a = true →
  within (-90) 90 latitude → within (-180) 180 longitude →
  Forall plain (dates_parameters start_date end_date) →
  ∃ url,
    (time_series self cv_name attributes latitude longitude
       start_date end_date w).2 = w ++ [url]
    ∧ urlparse.parse_qsl (urlparse.query url)
      = [ ("coverage", cv_name); ("attributes", a);
          ("latitude", format_f latitude);
          ("longitude", format_f longitude) ]
        ++ dates_parameters start_date end_date.
Proof.
  intros Hhost Hcv Hcvr Ha Hane Har Hl Hg Hdates.
  pose proof (text_not_empty _ _ Ha Hane) as He.
  destruct (within_not_outside _ _ _ Hl) as [Hl1 Hl2].
  destruct (within_not_outside _ _ _ Hg) as [Hg1 Hg2].
  destruct (fixed_notation_plain (format_f latitude)) as [Hl3 Hl4];
    [by eapply (format_f_bounded (-90) 90)|].
  destruct (fixed_notation_plain (format_f longitude)) as [Hg3 Hg4];
    [by eapply (format_f_bounded (-180) 180)|].
  eexists. split.
  { rewrite (time_series_text _ _ _ _ _ _ _ _ _ _ _ Hcv He Ha).
    unfold after_join. rewrite Hl1, Hl2, Hg1, Hg2. cbn [orb].
    apply request_sent. }
  set (params := [ ("coverage", cv_name); ("attributes", a);
                   ("latitude", format_f latitude);
                   ("longitude", format_f longitude) ]
                 ++ dates_parameters start_date end_date).
  assert (match start_date, end_date with
          | Some s, Some e =>
              if str_truthy s && str_truthy e
              then series_url self cv_name a latitude longitude
                   +:+ "&start=" +:+ s +:+ "&end=" +:+ e
              else series_url self cv_name a latitude longitude
          | _, _ => series_url self cv_name a latitude longitude
          end
          = (wtss.host self +:+ "/wtss/time_series")
            +:+ String "?" (query_of params)) as ->.
  { unfold params, dates_parameters, series_url.
    destruct start_date as [s|], end_date as [e|];
      try destruct (str_truthy s && str_truthy e);
      unfold query_of, field; simpl; rewrite !append_assoc; reflexivity. }
  apply query_decoded.
  - rewrite free_of_app. by rewrite Hhost.
  - unfold params. apply Forall_app. split; [|done].
    repeat constructor; done.
Qed.

End Server.

(** ** The further properties at concrete inputs *)

(** A document whose second item has no [attribute]. *)
Definition broken_document : pyval :=
  document
    [ ("attributes", PList [series "red" [1; 2; 3]%Z; PDict ∅;
                            series "nir" [4; 5; 6]%Z]) ].

Lemma broken_attributes :
  has_result broken_document "attributes"
    (PList ([series "red" [1; 2; 3]%Z] ++ PDict ∅
            :: [series "nir" [4; 5; 6]%Z])).
Proof.
  eexists _, _. split; [reflexivity|]. split; reflexivity.
Defined.

Lemma series_other_name (name other : string) (vals : list Z) :
  name ≠ other → other_name other (series name vals).
Proof.
  intros Hne. eexists _, (PStr name). split; [reflexivity|].
  split; [reflexivity|]. congruence.
Defined.

Lemma sent_coordinates_in_range_witness :
  (within (-90) 90 10%float ∨ PrimFloat.is_nan 10%float = true)
  ∧ (within (-180) 180 20%float ∨ PrimFloat.is_nan 20%float = true).
Proof.
  apply (sent_coordinates_in_range offline no_json inpe "cv" (PStr "red")
           10%float 20%float None None []).
  vm_compute. discriminate.
Defined.

Lemma nan_latitude_passes_witness :
  ∃ dates,
    (wtss.time_series offline no_json inpe "cv" (PStr "red")
       nan 20%float None None []).2
    = [] ++ [wtss.host inpe +:+ "/wtss/time_series?coverage=" +:+ "cv"
             +:+ "&attributes=" +:+ "red" +:+ "&latitude=nan&longitude="
             +:+ format_f 20%float +:+ dates].
Proof.
  apply (nan_latitude_passes offline no_json inpe "cv" (PStr "red") "red"
           nan 20%float None None []).
  - discriminate.
  - intros [H | [H | H]]; discriminate H.
  - constructor.
  - reflexivity.
  - split; reflexivity.
Defined.

Lemma sequence_or_joined_string_witness :
  wtss.time_series offline no_json inpe "cv" (PList (PStr <$> ["red"; "nir"]))
    10%float 20%float None None []
  = wtss.time_series offline no_json inpe "cv"
      (PStr (concat_sep "," ["red"; "nir"])) 10%float 20%float None None [].
Proof.
  apply (proj2 (sequence_or_joined_string offline no_json inpe "cv"
                  10%float 20%float None None []) ["red"; "nir"]).
  discriminate.
Defined.

Lemma falsy_attributes_missing_witness :
  wtss.time_series offline no_json inpe "cv" PNone
    10%float 20%float None None []
  = (inl (ValueError "Missing coverage attributes."), []).
Proof.
  apply (falsy_attributes_missing offline no_json inpe "cv" PNone).
  - discriminate.
  - apply elem_of_cons. left. reflexivity.
Defined.


Lemma dates_need_both_witness :
  wtss.time_series offline no_json inpe "mod13q1_512"
    (PList [PStr "red"; PStr "nir"]) (-12)%float (-54)%float
    (Some "") (Some "") []
  = wtss._request offline no_json inpe
      (series_url inpe "mod13q1_512" "red,nir" (-12)%float (-54)%float) [].
Proof.
  apply (dates_need_both offline no_json inpe "mod13q1_512"
           (PList [PStr "red"; PStr "nir"]) "red,nir").
  - discriminate.
  - intros [H | [H | H]]; discriminate H.
  - apply (text_of_list ["red"; "nir"]).
  - split; reflexivity.
  - split; reflexivity.
  - intros [(s & [= <-] & Hs) _]. apply Hs. reflexivity.
Defined.

Lemma checks_ignore_environment_witness :
  wtss.time_series (serving "{}") (json_document (PDict ∅))
    (wtss.__init__ "http://localhost") "cv" (PStr "red")
    95%float 0%float None None ["http://localhost/wtss/list_coverages"]
  = (inl (ValueError "latitude is out-of range!"),
     ["http://localhost/wtss/list_coverages"]).
Proof.
  apply (checks_ignore_environment offline (serving "{}") no_json
           (json_document (PDict ∅)) inpe (wtss.__init__ "http://localhost")
           "cv" (PStr "red") 95%float 0%float None None []).
  reflexivity.
Defined.

Lemma values_found_iff_witness :
  wtss.values sample_document "nir" = inr (PList (PInt <$> [4; 5; 6]%Z)).
Proof.
  apply (values_found_iff sample_document _ "nir" _ sample_attributes).
  exists [series "red" [1; 2; 3]%Z], (series "nir" [4; 5; 6]%Z),
    [series "red" [7; 8; 9]%Z].
  split; [reflexivity|]. split.
  - repeat constructor. apply series_other_name. discriminate.
  - apply series_record.
Defined.

Lemma values_not_found_iff_witness :
  wtss.values sample_document "evi" = inl (not_found "evi").
Proof.
  apply (values_not_found_iff sample_document _ "evi" sample_attributes).
  repeat constructor; apply series_other_name; discriminate.
Defined.

Lemma values_malformed_record_witness :
  wtss.values broken_document "nir" = inl (KeyError "attribute").
Proof.
  apply (values_malformed_record broken_document _ _ ∅ "nir"
           broken_attributes).
  - repeat constructor. apply series_other_name. discriminate.
  - reflexivity.
Defined.

Lemma missing_keys_witness :
  wtss.values (PDict ∅) "red" = inl (KeyError "result")
  ∧ wtss.timeline strptime_iso (PDict ∅) "%Y-%m-%d" = inl (KeyError "result").
Proof.
  apply (proj1 (missing_keys strptime_iso ∅ "red" "%Y-%m-%d")).
  reflexivity.
Defined.

Lemma timeline_returns_iff_witness :
  Forall2 (λ t d, ∃ dt, strptime_iso t "%Y-%m-%d" = inr dt
                        ∧ d = datetime_date dt)
    [PStr "2020-01-01"; PStr "2020-01-17"]
    [ {| year := 2020; month := 1; day := 1 |};
      {| year := 2020; month := 1; day := 17 |} ].
Proof.
  apply (timeline_returns_iff strptime_iso sample_document _ "%Y-%m-%d" _
           sample_timeline).
  reflexivity.
Defined.

Lemma coordinates_in_fixed_notation_witness :
  fixed_notation (format_f (-12.5)%float)
  ∧ fixed_notation (format_f 179.9999999%float)
  ∧ (wtss.time_series offline no_json inpe "cv" (PStr "red")
       (-12.5)%float 179.9999999%float (Some "2020-01-01") (Some "2020-12-31")
       []).2
    = [] ++ [wtss.host inpe +:+ "/wtss/time_series?coverage=" +:+ "cv"
             +:+ "&attributes=" +:+ "red"
             +:+ "&latitude=" +:+ format_f (-12.5)%float
             +:+ "&longitude=" +:+ format_f 179.9999999%float
             +:+ dates_text (Some "2020-01-01") (Some "2020-12-31")].
Proof.
  apply (coordinates_in_fixed_notation offline no_json inpe "cv" (PStr "red")
           "red" (-12.5)%float 179.9999999%float
           (Some "2020-01-01") (Some "2020-12-31") []).
  - discriminate.
  - intros [H | [H | H]]; discriminate H.
  - constructor.
  - split; reflexivity.
  - split; reflexivity.
Defined.

(** The address of the call above, in full. *)
Example coordinates_written :
  (wtss.time_series offline no_json inpe "cv" (PStr "red")
     (-12.5)%float 179.9999999%float (Some "2020-01-01") (Some "2020-12-31")
     []).2
  = ["http://www.dpi.inpe.br/tws/wtss/time_series?coverage=cv&attributes=red&latitude=-12.500000&longitude=180.000000&start=2020-01-01&end=2020-12-31"].
Proof. reflexivity. Qed.

Lemma request_decoded_witness :
  ∃ url,
    (wtss.time_series offline no_json inpe "mod13q1_512"
       (PList [PStr "red"; PStr "nir"]) (-12)%float (-54)%float
       (Some "2020-01-01") (Some "2020-12-31") []).2 = [] ++ [url]
    ∧ urlparse.parse_qsl (urlparse.query url)
      = [ ("coverage", "mod13q1_512"); ("attributes", "red,nir");
          ("latitude", format_f (-12)%float);
          ("longitude", format_f (-54)%float) ]
        ++ dates_parameters (Some "2020-01-01") (Some "2020-12-31").
Proof.
  apply (request_decoded offline no_json inpe "mod13q1_512"
           (PList [PStr "red"; PStr "nir"]) "red,nir").
  - reflexivity.
  - discriminate.
  - reflexivity.
  - apply (text_of_list ["red"; "nir"]).
  - discriminate.
  - reflexivity.
  - split; reflexivity.
  - split; reflexivity.
  - repeat constructor; discriminate.
Defined.
